(** * SupplyChainPredictor: tenant isolation and relational constraints

    A shallow embedding of
    - [backend/src/middleware/tenantIsolation.ts] (the tenant context, the
      Prisma middleware [tenantIsolationMiddleware] and [withTenant]),
    - the CRUD services of [backend/src/services], which hand their
      arguments to the Prisma client unchanged, and
    - the constraints declared by
      [backend/prisma/migrations/20251129220305_init/migration.sql]
      (unique indexes and foreign keys with their ON DELETE rules).

    JavaScript objects used as property maps are [gmap string _]; the
    module-level variable [currentTenantId] and the database are threaded
    explicitly through a state-and-exception monad [M].  The Prisma
    client and PostgreSQL, which the repository uses and does not define,
    are given by their documented behaviour on the calls of the services
    and of the tests: scalar and [connect] payloads, required fields,
    unique indexes and foreign keys. *)

From Stdlib Require Import ZArith Ascii String.
From stdpp Require Import gmap strings list fin_maps pretty.

Local Set Warnings "-register-all".

(* ===================================================================== *)
(** * JavaScript values *)
(* ===================================================================== *)

(** Primitive values that can sit in a database column or be compared by
    an equality filter.  Numbers are the integer-valued ones. *)
Inductive Scalar :=
  | SNull
  | SBool (b : bool)
  | SNum (z : Z)
  | SStr (s : string).

#[global] Instance Scalar_eq_dec : EqDecision Scalar.
Proof. solve_decision. Defined.

(** The [any]-typed payloads of a Prisma call: [undefined], a primitive,
    an array or an object (a map from property names to values). *)
Inductive Value :=
  | VUndefined
  | VScalar (s : Scalar)
  | VArray (l : list Value)
  | VObject (o : gmap string Value).

Definition VStr (s : string) : Value := VScalar (SStr s).

(** A [string | null] variable read as a value. *)
Definition ofNullable (t : option string) : Value :=
  match t with
  | Some s => VStr s
  | None => VScalar SNull
  end.

(** JavaScript truthiness of a [string | null] (and of a
    [string | undefined]): [null], [undefined] and the empty string are
    falsy, every other string is truthy. *)
Definition truthy (t : option string) : bool :=
  match t with
  | Some s => negb (String.eqb s "")
  | None => false
  end.

(** The characters of a string as one-character strings. *)
Fixpoint chars (s : string) : list string :=
  match s with
  | EmptyString => []
  | String a s' => String a EmptyString :: chars s'
  end.

(** An array-like seen as an object: index [i] becomes property ["i"]. *)
Definition indexed (l : list Value) : gmap string Value :=
  list_to_map (imap (λ i v, (pretty i, v)) l).

(** Own enumerable properties copied by an object spread [{...v}]: the
    properties of an object, the indices of an array or of a string, and
    nothing for [undefined], [null], booleans and numbers. *)
Definition spread (v : Value) : gmap string Value :=
  match v with
  | VObject o => o
  | VArray l => indexed l
  | VScalar (SStr s) => indexed (VStr <$> chars s)
  | _ => ∅
  end.

(** Property read [o.k]: [undefined] when the property is absent. *)
Definition getProp (o : gmap string Value) (k : string) : Value :=
  default VUndefined (o !! k).

(** ** [String.prototype.toLowerCase] on ASCII text

    Model names are identifiers, so only the letters A to Z change. *)
Definition isUpperAscii (a : ascii) : bool :=
  let n := nat_of_ascii a in (65 <=? n)%nat && (n <=? 90)%nat.

Definition lowerAscii (a : ascii) : ascii :=
  if isUpperAscii a then ascii_of_nat (nat_of_ascii a + 32) else a.

Fixpoint toLowerCase (s : string) : string :=
  match s with
  | EmptyString => EmptyString
  | String a s' => String (lowerAscii a) (toLowerCase s')
  end.

Fixpoint hasUpper (s : string) : bool :=
  match s with
  | EmptyString => false
  | String a s' => isUpperAscii a || hasUpper s'
  end.

(** [Array.prototype.includes] on an array of strings. *)
Definition includes (l : list string) (s : string) : bool :=
  existsb (String.eqb s) l.

(* ===================================================================== *)
(** * Errors, outcomes and the monad of database code *)
(* ===================================================================== *)

(** What a call can throw: the middleware's plain [Error] with its
    message, the [TypeError] of reading a property of [undefined], the
    client's validation error for a payload that lacks a required field,
    and the two failures the storage boundary reports. *)
Inductive Exception :=
  | Error_ (message : string)
  | TypeError
  | ValidationError
  | NotFound
  | ConstraintViolation.

#[global] Instance Exception_eq_dec : EqDecision Exception.
Proof. solve_decision. Defined.

Inductive Outcome (A : Type) :=
  | Returned (a : A)
  | Thrown (e : Exception).
Arguments Returned {A} a.
Arguments Thrown {A} e.

(** A database row: column name to stored value. *)
Abbreviation Row := (gmap string Scalar).

(** The database: table name to the rows of the table. *)
Abbreviation Database := (gmap string (list Row)).

(** The mutable state a request can touch: the module-level variable
    [currentTenantId] of tenantIsolation.ts and the database. *)
Record World := mkWorld {
  currentTenantId : option string;
  db : Database
}.

Definition M (A : Type) : Type := World → Outcome A * World.

#[global] Instance M_ret : MRet M := λ A a w, (Returned a, w).
#[global] Instance M_bind : MBind M := λ A B f m w,
  match m w with
  | (Returned a, w') => f a w'
  | (Thrown e, w') => (Thrown e, w')
  end.

Definition throw {A} (e : Exception) : M A := λ w, (Thrown e, w).

(** [try { body } finally { cleanup }]: the cleanup runs on both exits
    and the body's outcome is kept (the cleanups of this file do not
    throw). *)
Definition tryFinally {A} (body : M A) (cleanup : M unit) : M A := λ w,
  let '(r, w1) := body w in
  match cleanup w1 with
  | (Returned _, w2) => (r, w2)
  | (Thrown e, w2) => (Thrown e, w2)
  end.

(* ===================================================================== *)
(** * Tenant context (tenantIsolation.ts, lines 12 to 34) *)
(* ===================================================================== *)

Definition setCurrentTenant (tenantId : string) : M unit := λ w,
  (Returned tt, mkWorld (Some tenantId) (db w)).

Definition getCurrentTenant : M (option string) := λ w,
  (Returned (currentTenantId w), w).

Definition clearCurrentTenant : M unit := λ w,
  (Returned tt, mkWorld None (db w)).

(** [withTenant] (lines 158 to 173). *)
Definition withTenant {T} (tenantId : string) (operation : M T) : M T :=
  previousTenant ← getCurrentTenant;
  tryFinally
    (setCurrentTenant tenantId;; operation)
    (match previousTenant with
     | Some p =>
         if truthy previousTenant then setCurrentTenant p
         else clearCurrentTenant
     | None => clearCurrentTenant
     end).

(* ===================================================================== *)
(** * The middleware (tenantIsolation.ts, lines 45 to 148) *)
(* ===================================================================== *)

(** [Prisma.PrismaAction], the closed set of action names a middleware
    can be handed. *)
Inductive PrismaAction :=
  | findUnique | findUniqueOrThrow | findMany | findFirst | findFirstOrThrow
  | create | createMany | createManyAndReturn
  | update | updateMany | updateManyAndReturn | upsert
  | delete_ | deleteMany
  | executeRaw | queryRaw
  | aggregate | count | runCommandRaw | findRaw | groupBy.

#[global] Instance PrismaAction_eq_dec : EqDecision PrismaAction.
Proof. solve_decision. Defined.

(** [Prisma.MiddlewareParams]: [model] is optional (raw queries carry
    none); [args] is the argument object of the call, and is [undefined]
    when the call was written without one, as in
    [prisma.supplier.findMany()]. *)
Record MiddlewareParams := mkParams {
  model : option string;
  action : PrismaAction;
  args : option (gmap string Value)
}.

(** The properties of [params.args] where there is an object to read. *)
Definition argsOf (params : MiddlewareParams) : gmap string Value :=
  default ∅ (args params).

(** The error thrown at lines 50 to 53. *)
Definition tenantRequired : Exception :=
  Error_ ("Tenant ID required for database access. " +:+
          "Use setCurrentTenant() to set the tenant context before database operations.").

(** Lines 58 to 70. *)
Definition tenantedModels : list string :=
  [ "supplier"; "product"; "location"; "shipmentRoute"; "riskEvent";
    "inventory"; "user"; "riskEventSupplier"; "riskEventProduct";
    "riskEventLocation"; "riskEventRoute" ].

(** Lines 72 and 73: [modelName && tenantedModels.includes(modelName)]. *)
Definition isTenantedModel (m : option string) : bool :=
  let modelName := toLowerCase <$> m in
  truthy modelName &&
  match modelName with
  | Some n => includes tenantedModels n
  | None => false
  end.

(** [{ ...v, tenantId }]. *)
Definition withTenantId (tenantId : option string) (v : Value) : Value :=
  VObject (<["tenantId" := ofNullable tenantId]> (spread v)).

(** The cases of the switch assign to a property of [params.args] a
    value computed from [params.args]: with [args] [undefined], reading
    the property throws a TypeError. *)
Definition onArgs (f : gmap string Value → gmap string Value)
    (params : MiddlewareParams) : Outcome MiddlewareParams :=
  match args params with
  | None => Thrown TypeError
  | Some a => Returned (mkParams (model params) (action params) (Some (f a)))
  end.

(** [args.where = { ...args.where, tenantId }]. *)
Definition whereScoped (tenantId : option string) (a : gmap string Value)
  : gmap string Value :=
  <["where" := withTenantId tenantId (getProp a "where")]> a.

(** [args.data = { ...args.data, tenantId }]. *)
Definition dataStamped (tenantId : option string) (a : gmap string Value)
  : gmap string Value :=
  <["data" := withTenantId tenantId (getProp a "data")]> a.

(** The [createMany] case, lines 112 to 125: [Array.isArray] picks the
    first branch exactly for an array. *)
Definition manyStamped (tenantId : option string) (a : gmap string Value)
  : gmap string Value :=
  match getProp a "data" with
  | VArray records =>
      <["data" := VArray (withTenantId tenantId <$> records)]> a
  | _ => dataStamped tenantId a
  end.

(** [params.args.where = { ...params.args.where, tenantId }]. *)
Definition scopeWhere (tenantId : option string)
  : MiddlewareParams → Outcome MiddlewareParams :=
  onArgs (whereScoped tenantId).

(** [params.args.data = { ...params.args.data, tenantId }]. *)
Definition stampData (tenantId : option string)
  : MiddlewareParams → Outcome MiddlewareParams :=
  onArgs (dataStamped tenantId).

(** [if (Array.isArray(params.args.data)) ... else ...]. *)
Definition stampMany (tenantId : option string)
  : MiddlewareParams → Outcome MiddlewareParams :=
  onArgs (manyStamped tenantId).

(** The [switch] of lines 81 to 145; an action without a case leaves
    the parameters as they are and reads nothing. *)
Definition scopeParams (tenantId : option string) (params : MiddlewareParams)
  : Outcome MiddlewareParams :=
  match action params with
  | findUnique | findFirst | findFirstOrThrow | findUniqueOrThrow =>
      scopeWhere tenantId params
  | findMany | count | aggregate | groupBy =>
      scopeWhere tenantId params
  | create => stampData tenantId params
  | createMany => stampMany tenantId params
  | update | updateMany | upsert => scopeWhere tenantId params
  | delete_ | deleteMany => scopeWhere tenantId params
  | _ => Returned params
  end.

Definition isRaw (a : PrismaAction) : bool :=
  bool_decide (a = executeRaw) || bool_decide (a = queryRaw).

Definition tenantIsolationMiddleware {R} (params : MiddlewareParams)
    (next : MiddlewareParams → M R) : M R :=
  tenantId ← getCurrentTenant;
  if negb (truthy tenantId) && negb (isRaw (action params))
  then throw tenantRequired
  else if negb (isTenantedModel (model params))
  then next params
  else match scopeParams tenantId params with
       | Returned scoped => next scoped
       | Thrown e => throw e
       end.

(** The entity types the policy is written for (the seven primary
    entities and the four RiskEvent junctions): the eleven names listed
    in [tenantedModels], whatever the letter case of the model name the
    client passes. *)
Definition tenantScoped (m : option string) : bool :=
  match m with
  | Some n => includes (toLowerCase <$> tenantedModels) (toLowerCase n)
  | None => false
  end.

(** The operation kinds that carry a filter, and those that carry a
    payload to stamp. *)
Definition filterActions : list PrismaAction :=
  [ findUnique; findUniqueOrThrow; findFirst; findFirstOrThrow; findMany;
    count; aggregate; groupBy; update; updateMany; upsert; delete_;
    deleteMany ].

Definition createActions : list PrismaAction := [ create; createMany ].

(* ===================================================================== *)
(** * The schema (migration.sql) *)
(* ===================================================================== *)

Inductive ReferentialAction := Restrict | Cascade.

#[global] Instance ReferentialAction_eq_dec : EqDecision ReferentialAction.
Proof. solve_decision. Defined.

(** [ALTER TABLE fkTable ADD CONSTRAINT ... FOREIGN KEY (fkColumn)
    REFERENCES fkParent(fkParentColumn) ON DELETE onDelete ON UPDATE
    onUpdate]. *)
Record ForeignKey := mkFK {
  fkTable : string;
  fkColumn : string;
  fkParent : string;
  fkParentColumn : string;
  onDelete : ReferentialAction;
  onUpdate : ReferentialAction
}.

#[global] Instance ForeignKey_eq_dec : EqDecision ForeignKey.
Proof. solve_decision. Defined.

(** The columns of each [CREATE TABLE], lines 25 to 189. *)
Definition tables : list (string * list string) :=
  [ ("suppliers",
      ["id"; "tenant_id"; "code"; "name"; "country"; "contact_email";
       "contact_phone"; "address"; "rating"; "notes"; "created_at";
       "updated_at"]);
    ("products",
      ["id"; "tenant_id"; "sku"; "name"; "description"; "category";
       "unit_of_measure"; "lead_time_days"; "supplier_id"; "created_at";
       "updated_at"]);
    ("locations",
      ["id"; "tenant_id"; "code"; "name"; "type"; "address"; "city";
       "state"; "country"; "postal_code"; "latitude"; "longitude";
       "capacity"; "status"; "created_at"; "updated_at"]);
    ("shipment_routes",
      ["id"; "tenant_id"; "origin_location_id"; "destination_location_id";
       "transit_time_days"; "transport_mode"; "distance"; "cost";
       "created_at"; "updated_at"]);
    ("risk_events",
      ["id"; "tenant_id"; "event_type"; "severity"; "status"; "start_date";
       "resolution_date"; "title"; "description"; "impact_assessment";
       "mitigation_plan"; "created_at"; "updated_at"]);
    ("inventory",
      ["id"; "tenant_id"; "product_id"; "location_id"; "quantity_on_hand";
       "quantity_reserved"; "reorder_point"; "last_count_date";
       "created_at"; "updated_at"]);
    ("users",
      ["id"; "tenant_id"; "email"; "name"; "role"; "status";
       "last_login_at"; "created_at"; "updated_at"]);
    ("risk_event_suppliers",
      ["id"; "tenant_id"; "risk_event_id"; "supplier_id"; "created_at"]);
    ("risk_event_products",
      ["id"; "tenant_id"; "risk_event_id"; "product_id"; "created_at"]);
    ("risk_event_locations",
      ["id"; "tenant_id"; "risk_event_id"; "location_id"; "created_at"]);
    ("risk_event_routes",
      ["id"; "tenant_id"; "risk_event_id"; "route_id"; "created_at"]) ].

Definition columnsOf (t : string) : list string :=
  default [] (snd <$> find (λ p, String.eqb (fst p) t) tables).

(** The primary keys and the [CREATE UNIQUE INDEX] statements (lines 191
    to 310): table and indexed columns. *)
Definition uniqueIndexes : list (string * list string) :=
  [ ("suppliers", ["id"]); ("products", ["id"]); ("locations", ["id"]);
    ("shipment_routes", ["id"]); ("risk_events", ["id"]);
    ("inventory", ["id"]); ("users", ["id"]);
    ("risk_event_suppliers", ["id"]); ("risk_event_products", ["id"]);
    ("risk_event_locations", ["id"]); ("risk_event_routes", ["id"]);
    ("suppliers", ["code"]);
    ("products", ["sku"]);
    ("locations", ["code"]);
    ("shipment_routes",
      ["tenant_id"; "origin_location_id"; "destination_location_id";
       "transport_mode"]);
    ("inventory", ["tenant_id"; "product_id"; "location_id"]);
    ("users", ["email"]);
    ("risk_event_suppliers", ["risk_event_id"; "supplier_id"]);
    ("risk_event_products", ["risk_event_id"; "product_id"]);
    ("risk_event_locations", ["risk_event_id"; "location_id"]);
    ("risk_event_routes", ["risk_event_id"; "route_id"]) ].

(** The [ADD CONSTRAINT ... FOREIGN KEY] statements, lines 312 to 349. *)
Definition foreignKeys : list ForeignKey :=
  [ mkFK "products" "supplier_id" "suppliers" "id" Restrict Cascade;
    mkFK "shipment_routes" "origin_location_id" "locations" "id"
      Restrict Cascade;
    mkFK "shipment_routes" "destination_location_id" "locations" "id"
      Restrict Cascade;
    mkFK "inventory" "product_id" "products" "id" Cascade Cascade;
    mkFK "inventory" "location_id" "locations" "id" Cascade Cascade;
    mkFK "risk_event_suppliers" "risk_event_id" "risk_events" "id"
      Cascade Cascade;
    mkFK "risk_event_suppliers" "supplier_id" "suppliers" "id"
      Cascade Cascade;
    mkFK "risk_event_products" "risk_event_id" "risk_events" "id"
      Cascade Cascade;
    mkFK "risk_event_products" "product_id" "products" "id"
      Cascade Cascade;
    mkFK "risk_event_locations" "risk_event_id" "risk_events" "id"
      Cascade Cascade;
    mkFK "risk_event_locations" "location_id" "locations" "id"
      Cascade Cascade;
    mkFK "risk_event_routes" "risk_event_id" "risk_events" "id"
      Cascade Cascade;
    mkFK "risk_event_routes" "route_id" "shipment_routes" "id"
      Cascade Cascade ].

(** The foreign keys that point at table [t]. *)
Definition referencing (t : string) : list ForeignKey :=
  filter (λ fk, fkParent fk = t) foreignKeys.

(* ===================================================================== *)
(** * The relational engine

    The storage engine is an external collaborator (PostgreSQL).  This
    section gives its documented treatment of the constraints above, on
    rows that are taken to be well typed: column types and DEFAULT
    clauses are not checked or filled in, and NOT NULL is left to the
    client's check of required fields (below). *)
(* ===================================================================== *)

Definition rowsOf (d : Database) (t : string) : list Row :=
  default [] (d !! t).

(** The value of a column; a column missing from a row is NULL. *)
Definition cell (r : Row) (c : string) : Scalar :=
  default SNull (r !! c).

(** Two rows collide on a unique index when they agree on every indexed
    column and none of those values is NULL. *)
Definition collide (cols : list string) (r1 r2 : Row) : bool :=
  forallb (λ c, bool_decide (cell r1 c = cell r2 c ∧ cell r1 c ≠ SNull)) cols.

Definition violatesUnique (t : string) (r : Row) (existing : list Row)
  : bool :=
  existsb
    (λ ix, String.eqb (fst ix) t && existsb (collide (snd ix) r) existing)
    uniqueIndexes.

(** A non-NULL foreign-key value must name an existing parent row. *)
Definition violatesForeignKey (d : Database) (t : string) (r : Row) : bool :=
  existsb
    (λ fk,
       String.eqb (fkTable fk) t &&
       bool_decide (cell r (fkColumn fk) ≠ SNull) &&
       negb (existsb
               (λ p, bool_decide
                       (cell p (fkParentColumn fk) = cell r (fkColumn fk)))
               (rowsOf d (fkParent fk))))
    foreignKeys.

(** [INSERT INTO t]: [None] is a constraint violation. *)
Definition insertRow (t : string) (r : Row) (d : Database)
  : option Database :=
  if violatesUnique t r (rowsOf d t) || violatesForeignKey d t r
  then None
  else Some (<[t := rowsOf d t ++ [r]]> d).

Fixpoint insertRows (t : string) (rs : list Row) (d : Database)
  : option Database :=
  match rs with
  | [] => Some d
  | r :: rs' =>
      match insertRow t r d with
      | Some d' => insertRows t rs' d'
      | None => None
      end
  end.

(** A child row refers, through [fk], to one of the rows [parents]. *)
Definition refersTo (fk : ForeignKey) (parents : list Row) (child : Row)
  : bool :=
  bool_decide (cell child (fkColumn fk) ≠ SNull) &&
  existsb
    (λ p, bool_decide
            (cell p (fkParentColumn fk) = cell child (fkColumn fk)))
    parents.

Inductive DeleteResult :=
  | Deleted (d : Database)
  | Restricted
  | Exhausted.

(** Following one foreign key [fk] that points at the table being
    deleted from: the rows referencing a victim block the delete under
    RESTRICT and are deleted in turn, by [recurse], under CASCADE. *)
Definition follow (recurse : string → list Row → Database → DeleteResult)
    (victims : list Row) (acc : DeleteResult) (fk : ForeignKey)
  : DeleteResult :=
  match acc with
  | Deleted d1 =>
      let children :=
        filter (λ c, refersTo fk victims c = true) (rowsOf d1 (fkTable fk)) in
      match children, onDelete fk with
      | [], _ => Deleted d1
      | _ :: _, Restrict => Restricted
      | _ :: _, Cascade => recurse (fkTable fk) children d1
      end
  | _ => acc
  end.

(** [DELETE FROM t] of the rows [victims]: every foreign key pointing at
    [t] is followed, then the victims are removed.  [fuel] bounds the
    depth of the cascade. *)
Fixpoint deleteRows (fuel : nat) (t : string) (victims : list Row)
    (d : Database) : DeleteResult :=
  match fuel with
  | O => Exhausted
  | S fuel' =>
      match fold_left (follow (deleteRows fuel') victims) (referencing t)
                      (Deleted d) with
      | Deleted d2 =>
          Deleted (<[t := filter (λ r, r ∉ victims) (rowsOf d2 t)]> d2)
      | r => r
      end
  end.

(** No chain of foreign keys is longer than the number of tables. *)
Definition cascadeFuel : nat := S (length tables).

Definition deleteFrom (t : string) (victims : list Row) (d : Database)
  : DeleteResult :=
  deleteRows cascadeFuel t victims d.

(** [UPDATE t] of one row: the new row is checked against the other
    rows and against its parents, and a changed key is propagated to the
    referencing rows (every foreign key is ON UPDATE CASCADE; under
    RESTRICT referencing rows would block the change). *)
Definition propagateKey (t : string) (old new : Row) (d : Database)
  : option Database :=
  fold_left
    (λ acc fk,
       d1 ← acc;
       let k := fkParentColumn fk in
       if decide (cell old k = cell new k) then Some d1
       else
         let children :=
           filter (λ c, refersTo fk [old] c = true) (rowsOf d1 (fkTable fk)) in
         match children, onUpdate fk with
         | [], _ => Some d1
         | _ :: _, Restrict => None
         | _ :: _, Cascade =>
             Some (<[fkTable fk :=
                       (λ c, if refersTo fk [old] c
                             then <[fkColumn fk := cell new k]> c else c)
                       <$> rowsOf d1 (fkTable fk)]> d1)
         end)
    (referencing t) (Some d).

Definition updateRow (t : string) (old new : Row) (d : Database)
  : option Database :=
  if violatesUnique t new (filter (λ r, r ≠ old) (rowsOf d t))
     || violatesForeignKey d t new
  then None
  else
    propagateKey t old new
      (<[t := (λ r, if decide (r = old) then new else r) <$> rowsOf d t]> d).

(* ===================================================================== *)
(** * The Prisma client over the engine

    The client's query execution, another external collaborator, as far
    as the services and the tests use it: it maps model and field names
    to tables and columns, selects the rows a [where] object matches,
    reads a payload (primitives under scalar fields, [connect] by id
    under relation fields), refuses a create that lacks a required field,
    and runs inserts, updates and deletes through the engine.  A payload
    of another form is answered with [notInterpreted].  Generated ids,
    defaults and timestamps are not filled in, values are taken to be of
    the type of their field, and records are answered as stored rows. *)
(* ===================================================================== *)

(** [@@map]: the table of each model (schema.prisma, as listed in
    specs/002-data-model-schema/data-model.md). *)
Definition modelTables : list (string * string) :=
  [ ("Supplier", "suppliers"); ("Product", "products");
    ("Location", "locations"); ("ShipmentRoute", "shipment_routes");
    ("RiskEvent", "risk_events"); ("Inventory", "inventory");
    ("User", "users"); ("RiskEventSupplier", "risk_event_suppliers");
    ("RiskEventProduct", "risk_event_products");
    ("RiskEventLocation", "risk_event_locations");
    ("RiskEventRoute", "risk_event_routes") ].

Definition tableOf (m : string) : option string :=
  snd <$> find (λ p, String.eqb (fst p) m) modelTables.

(** [@map]: the fields whose column has another name (same listing). *)
Definition fieldColumns : list (string * string) :=
  [ ("tenantId", "tenant_id"); ("contactEmail", "contact_email");
    ("contactPhone", "contact_phone"); ("createdAt", "created_at");
    ("updatedAt", "updated_at"); ("unitOfMeasure", "unit_of_measure");
    ("leadTimeDays", "lead_time_days"); ("supplierId", "supplier_id");
    ("postalCode", "postal_code");
    ("originLocationId", "origin_location_id");
    ("destinationLocationId", "destination_location_id");
    ("transitTimeDays", "transit_time_days");
    ("transportMode", "transport_mode"); ("eventType", "event_type");
    ("startDate", "start_date"); ("resolutionDate", "resolution_date");
    ("impactAssessment", "impact_assessment");
    ("mitigationPlan", "mitigation_plan"); ("productId", "product_id");
    ("locationId", "location_id"); ("quantityOnHand", "quantity_on_hand");
    ("quantityReserved", "quantity_reserved");
    ("reorderPoint", "reorder_point"); ("lastCountDate", "last_count_date");
    ("lastLoginAt", "last_login_at"); ("riskEventId", "risk_event_id");
    ("routeId", "route_id") ].

Definition columnOf (field : string) : string :=
  default field (snd <$> find (λ p, String.eqb (fst p) field) fieldColumns).

Definition fieldOf (column : string) : string :=
  default column
    (fst <$> find (λ p, String.eqb (snd p) column) fieldColumns).

(** [k] is a scalar field of the model stored in table [t]. *)
Definition isField (t k : string) : bool :=
  bool_decide (columnOf k ∈ columnsOf t) && String.eqb (fieldOf (columnOf k)) k.

(** The meaning of the filter conditions this model does not spell out:
    operator objects, relation filters, AND/OR/NOT, and whatever else a
    [where] object may hold under a key.  Every statement below holds
    for each such meaning. *)
Class FilterSemantics :=
  otherCondition : string → string → Value → Row → bool.

(** One property [k: v] of a [where] object, on a row of table [t]:
    an [undefined] value is no condition, a primitive under a scalar
    field is equality with the column ([null] is IS NULL). *)
Definition condition `{FilterSemantics} (t k : string) (v : Value) (r : Row)
  : bool :=
  match v with
  | VUndefined => true
  | VScalar s =>
      if isField t k then bool_decide (cell r (columnOf k) = s)
      else otherCondition t k v r
  | _ => otherCondition t k v r
  end.

(** A [where] object is the conjunction of its properties. *)
Definition matches `{FilterSemantics} (t : string) (w : gmap string Value)
    (r : Row) : bool :=
  bool_decide (map_Forall (λ k v, condition t k v r = true) w).

(** The rows of table [t] that the [where] argument selects. *)
Definition selectRows `{FilterSemantics} (t : string) (where_ : Value)
    (d : Database) : list Row :=
  filter (λ r, matches t (spread where_) r = true) (rowsOf d t).

(** ** Payloads *)

(** [@relation(fields: [f], references: [id])]: table of the model,
    relation field, and the scalar field [f] that holds the key (same
    listing). *)
Definition relationFields : list (string * (string * string)) :=
  [ ("products", ("supplier", "supplierId"));
    ("shipment_routes", ("originLocation", "originLocationId"));
    ("shipment_routes", ("destinationLocation", "destinationLocationId"));
    ("inventory", ("product", "productId"));
    ("inventory", ("location", "locationId"));
    ("risk_event_suppliers", ("riskEvent", "riskEventId"));
    ("risk_event_suppliers", ("supplier", "supplierId"));
    ("risk_event_products", ("riskEvent", "riskEventId"));
    ("risk_event_products", ("product", "productId"));
    ("risk_event_locations", ("riskEvent", "riskEventId"));
    ("risk_event_locations", ("location", "locationId"));
    ("risk_event_routes", ("riskEvent", "riskEventId"));
    ("risk_event_routes", ("route", "routeId")) ].

Definition relationsOf (t : string) : list (string * string) :=
  snd <$> filter (λ p, fst p = t) relationFields.

(** The relation field of [t] whose key the scalar field [f] holds. *)
Definition relationOver (t f : string) : option string :=
  fst <$> find (λ p, String.eqb (snd p) f) (relationsOf t).

(** The scalar field that holds the key of the relation field [k]. *)
Definition keyFieldOf (t k : string) : option string :=
  snd <$> find (λ p, String.eqb (fst p) k) (relationsOf t).

(** The fields a create has to give a value: the columns declared NOT
    NULL without a DEFAULT in migration.sql, apart from [id] and
    [updated_at], which the client fills in ([@default(uuid())],
    [@updatedAt]). *)
Definition requiredFields : list (string * list string) :=
  [ ("suppliers", ["tenantId"; "code"; "name"; "country"]);
    ("products",
      ["tenantId"; "sku"; "name"; "category"; "leadTimeDays"; "supplierId"]);
    ("locations", ["tenantId"; "code"; "name"; "type"; "country"]);
    ("shipment_routes",
      ["tenantId"; "originLocationId"; "destinationLocationId";
       "transitTimeDays"; "transportMode"]);
    ("risk_events",
      ["tenantId"; "eventType"; "severity"; "startDate"; "title";
       "description"]);
    ("inventory", ["tenantId"; "productId"; "locationId"]);
    ("users", ["tenantId"; "email"; "name"; "role"]);
    ("risk_event_suppliers", ["tenantId"; "riskEventId"; "supplierId"]);
    ("risk_event_products", ["tenantId"; "riskEventId"; "productId"]);
    ("risk_event_locations", ["tenantId"; "riskEventId"; "locationId"]);
    ("risk_event_routes", ["tenantId"; "riskEventId"; "routeId"]) ].

Definition requiredOf (t : string) : list string :=
  default [] (snd <$> find (λ p, String.eqb (fst p) t) requiredFields).

(** The optional fields (marked [?] in the listing; their columns are
    the ones without NOT NULL in migration.sql): the only fields that
    take [null]. *)
Definition optionalFields : list (string * list string) :=
  [ ("suppliers", ["contactEmail"; "contactPhone"; "address"; "notes"]);
    ("products", ["description"]);
    ("locations",
      ["address"; "city"; "state"; "postalCode"; "latitude"; "longitude";
       "capacity"]);
    ("shipment_routes", ["distance"; "cost"]);
    ("risk_events", ["resolutionDate"; "impactAssessment"; "mitigationPlan"]);
    ("inventory", ["lastCountDate"]);
    ("users", ["lastLoginAt"]) ].

Definition optionalOf (t : string) : list string :=
  default [] (snd <$> find (λ p, String.eqb (fst p) t) optionalFields).

(** The primitive found under a field. *)
Definition scalarAt (data : gmap string Value) (field : string)
  : option Scalar :=
  match data !! field with
  | Some (VScalar s) => Some s
  | _ => None
  end.

(** The id of [{ connect: { id } }], an object with this one property
    whose value has this one property. *)
Definition connectedId (v : Value) : option string :=
  match v with
  | VObject o =>
      match o !! "connect" with
      | Some (VObject c) =>
          match c !! "id" with
          | Some (VScalar (SStr i)) =>
              if bool_decide (size o = 1 ∧ size c = 1) then Some i else None
          | _ => None
          end
      | _ => None
      end
  | _ => None
  end.

(** The value a payload gives to the scalar field [field]: the primitive
    written under the field, or the id connected under the relation
    field whose key the field holds. *)
Definition valueAt (t : string) (data : gmap string Value) (field : string)
  : option Scalar :=
  match scalarAt data field with
  | Some s => Some s
  | None =>
      rel ← relationOver t field; v ← data !! rel; SStr <$> connectedId v
  end.

(** The columns a payload sets. *)
Definition rowOfData (t : string) (data : gmap string Value) : Row :=
  list_to_map
    (omap (λ c, pair c <$> valueAt t data (fieldOf c)) (columnsOf t)).

(** A property of a payload that the model reads: [undefined] (no
    write), a primitive under a scalar field, [connect] by id under a
    relation field. *)
Definition interpreted (t k : string) (v : Value) : bool :=
  match v with
  | VUndefined => true
  | VScalar _ => isField t k
  | VObject _ =>
      bool_decide (is_Some (keyFieldOf t k))
      && bool_decide (is_Some (connectedId v))
  | VArray _ => false
  end.

(** A property that is there: [undefined] counts as absent. *)
Definition present (data : gmap string Value) (k : string) : bool :=
  match data !! k with
  | Some VUndefined | None => false
  | Some _ => true
  end.

Definition namesRelation (t : string) (data : gmap string Value) : bool :=
  existsb (λ p, present data (fst p)) (relationsOf t).

Definition writesKeyField (t : string) (data : gmap string Value) : bool :=
  existsb (λ p, present data (snd p)) (relationsOf t).

(** The payloads the model reads: objects whose properties are all
    [interpreted], and that do not name a relation field next to a key
    field written directly (the client has one input type with the
    relation fields and one with the key fields). *)
Definition modelled (t : string) (payload : Value) : bool :=
  match payload with
  | VObject data =>
      bool_decide (map_Forall (λ k v, interpreted t k v = true) data)
      && negb (namesRelation t data && writesKeyField t data)
  | _ => false
  end.

(** The records of a [createMany] carry scalar fields only. *)
Definition flat (t : string) (payload : Value) : bool :=
  modelled t payload && negb (namesRelation t (spread payload)).

(** [null] is written under optional fields only. *)
Definition nullsAllowed (t : string) (data : gmap string Value) : bool :=
  bool_decide
    (map_Forall
       (λ k v, match v with
               | VScalar SNull => bool_decide (k ∈ optionalOf t)
               | _ => true
               end = true)
       data).

(** Every required field is given a value, and none a [null] it does
    not take. *)
Definition complete (t : string) (data : gmap string Value) : bool :=
  forallb (λ f, bool_decide (is_Some (valueAt t data f))) (requiredOf t)
  && nullsAllowed t data.

Definition notInterpreted : Exception :=
  Error_ "operation outside the modelled client".

(** The row of a create payload. *)
Definition newRow (t : string) (payload : Value) : Outcome Row :=
  if negb (modelled t payload) then Thrown notInterpreted
  else if negb (complete t (spread payload)) then Thrown ValidationError
  else Returned (rowOfData t (spread payload)).

(** The rows of a [createMany] payload, an array of records or one
    record. *)
Definition newRows (t : string) (payload : Value) : Outcome (list Row) :=
  let records := match payload with VArray l => l | v => [v] end in
  if negb (forallb (flat t) records) then Thrown notInterpreted
  else if negb (forallb (λ v, complete t (spread v)) records)
  then Thrown ValidationError
  else Returned ((λ v, rowOfData t (spread v)) <$> records).

(** The columns an update payload sets. *)
Definition changedColumns (t : string) (payload : Value) : Outcome Row :=
  if negb (modelled t payload) then Thrown notInterpreted
  else if negb (nullsAllowed t (spread payload)) then Thrown ValidationError
  else Returned (rowOfData t (spread payload)).

Inductive QueryResult :=
  | QRows (rows : list Row)
  | QRecord (r : option Row)
  | QCount (n : nat).

Definition liftDb (r : option Database) (ok : QueryResult) : M QueryResult :=
  λ w,
    match r with
    | Some d => (Returned ok, mkWorld (currentTenantId w) d)
    | None => (Thrown ConstraintViolation, w)
    end.

(** Query execution, the end of the middleware chain.  A call without an
    argument object runs as one with an empty object.  [aggregate] and
    [groupBy] answer with the rows they range over. *)
Definition engine `{FilterSemantics} (params : MiddlewareParams)
  : M QueryResult := λ w,
  match model params ≫= tableOf with
  | None => (Thrown notInterpreted, w)
  | Some t =>
      let a := argsOf params in
      let matched := selectRows t (getProp a "where") (db w) in
      match action params with
      | findMany | aggregate | groupBy => (Returned (QRows matched), w)
      | findUnique | findFirst => (Returned (QRecord (head matched)), w)
      | findUniqueOrThrow | findFirstOrThrow =>
          match matched with
          | [] => (Thrown NotFound, w)
          | r :: _ => (Returned (QRecord (Some r)), w)
          end
      | count => (Returned (QCount (length matched)), w)
      | create =>
          match newRow t (getProp a "data") with
          | Returned r => liftDb (insertRow t r (db w)) (QRecord (Some r)) w
          | Thrown e => (Thrown e, w)
          end
      | createMany =>
          match newRows t (getProp a "data") with
          | Returned rs =>
              liftDb (insertRows t rs (db w)) (QCount (length rs)) w
          | Thrown e => (Thrown e, w)
          end
      | update =>
          match changedColumns t (getProp a "data") with
          | Returned changes =>
              match matched with
              | [] => (Thrown NotFound, w)
              | r :: _ =>
                  let r' := changes ∪ r in
                  liftDb (updateRow t r r' (db w)) (QRecord (Some r')) w
              end
          | Thrown e => (Thrown e, w)
          end
      | updateMany =>
          match changedColumns t (getProp a "data") with
          | Returned changes =>
              liftDb
                (fold_left (λ acc r, d ← acc; updateRow t r (changes ∪ r) d)
                           matched (Some (db w)))
                (QCount (length matched)) w
          | Thrown e => (Thrown e, w)
          end
      | upsert =>
          match newRow t (getProp a "create"),
                changedColumns t (getProp a "update") with
          | Returned r0, Returned changes =>
              match matched with
              | [] => liftDb (insertRow t r0 (db w)) (QRecord (Some r0)) w
              | r :: _ =>
                  let r' := changes ∪ r in
                  liftDb (updateRow t r r' (db w)) (QRecord (Some r')) w
              end
          | Thrown e, _ => (Thrown e, w)
          | _, Thrown e => (Thrown e, w)
          end
      | delete_ =>
          match matched with
          | [] => (Thrown NotFound, w)
          | r :: _ =>
              match deleteFrom t [r] (db w) with
              | Deleted d =>
                  (Returned (QRecord (Some r)), mkWorld (currentTenantId w) d)
              | Restricted => (Thrown ConstraintViolation, w)
              | Exhausted => (Thrown notInterpreted, w)
              end
          end
      | deleteMany =>
          match deleteFrom t matched (db w) with
          | Deleted d =>
              (Returned (QCount (length matched)),
               mkWorld (currentTenantId w) d)
          | Restricted => (Thrown ConstraintViolation, w)
          | Exhausted => (Thrown notInterpreted, w)
          end
      | _ => (Thrown notInterpreted, w)
      end
  end.

(** [prisma.<model>.<action>(args)] on the client of config/database.ts,
    on which [tenantIsolationMiddleware] is registered with [$use];
    [arguments] is [None] for a call written without an argument
    object. *)
Definition prismaCall `{FilterSemantics} (m : string) (a : PrismaAction)
    (arguments : option (gmap string Value)) : M QueryResult :=
  tenantIsolationMiddleware (mkParams (Some m) a arguments) engine.

Definition prisma `{FilterSemantics} (m : string) (a : PrismaAction)
    (arguments : gmap string Value) : M QueryResult :=
  prismaCall m a (Some arguments).

(* ===================================================================== *)
(** * The services (backend/src/services)

    Every service method hands its arguments to the client as they are;
    the seven classes differ in the model and in the relations their
    reads include. *)
(* ===================================================================== *)

Definition VTrue : Value := VScalar (SBool true).

(** [{ id }]. *)
Definition byId (id : string) : Value := VObject {[ "id" := VStr id ]}.

Section Crud.
Context `{FilterSemantics}.
Variable m : string.
Variable include : gmap string Value.

(** [create(data)]: [prisma.m.create({ data })]. *)
Definition crudCreate (data : Value) : M QueryResult :=
  prisma m create {[ "data" := data ]}.

(** [findAll(where?)]: [prisma.m.findMany({ where, include })]. *)
Definition crudFindAll (where_ : Value) : M QueryResult :=
  prisma m findMany (<[ "where" := where_ ]> include).

(** [findById(id)]: [prisma.m.findUnique({ where: { id }, include })]. *)
Definition crudFindById (id : string) : M QueryResult :=
  prisma m findUnique (<[ "where" := byId id ]> include).

(** [update(id, data)]: [prisma.m.update({ where: { id }, data })]. *)
Definition crudUpdate (id : string) (data : Value) : M QueryResult :=
  prisma m update (<[ "where" := byId id ]> {[ "data" := data ]}).

(** [delete(id)]: [prisma.m.delete({ where: { id } })]. *)
Definition crudDelete (id : string) : M QueryResult :=
  prisma m delete_ {[ "where" := byId id ]}.
End Crud.

Module SupplierService.
Definition create `{FilterSemantics} := crudCreate "Supplier".
Definition findAll `{FilterSemantics} := crudFindAll "Supplier" ∅.
Definition findById `{FilterSemantics} := crudFindById "Supplier" ∅.
Definition update `{FilterSemantics} := crudUpdate "Supplier".
Definition delete `{FilterSemantics} := crudDelete "Supplier".
End SupplierService.

Module ProductService.
Definition include : gmap string Value :=
  {[ "include" := VObject {[ "supplier" := VTrue ]} ]}.
Definition create `{FilterSemantics} := crudCreate "Product".
Definition findAll `{FilterSemantics} := crudFindAll "Product" include.
Definition findById `{FilterSemantics} := crudFindById "Product" include.
Definition update `{FilterSemantics} := crudUpdate "Product".
Definition delete `{FilterSemantics} := crudDelete "Product".
End ProductService.

Module LocationService.
Definition create `{FilterSemantics} := crudCreate "Location".
Definition findAll `{FilterSemantics} := crudFindAll "Location" ∅.
Definition findById `{FilterSemantics} := crudFindById "Location" ∅.
Definition update `{FilterSemantics} := crudUpdate "Location".
Definition delete `{FilterSemantics} := crudDelete "Location".
End LocationService.

Module ShipmentRouteService.
Definition include : gmap string Value :=
  {[ "include" :=
       VObject (<[ "originLocation" := VTrue ]>
                  {[ "destinationLocation" := VTrue ]}) ]}.
Definition create `{FilterSemantics} := crudCreate "ShipmentRoute".
Definition findAll `{FilterSemantics} :=
  crudFindAll "ShipmentRoute" include.
Definition findById `{FilterSemantics} :=
  crudFindById "ShipmentRoute" include.
Definition update `{FilterSemantics} := crudUpdate "ShipmentRoute".
Definition delete `{FilterSemantics} := crudDelete "ShipmentRoute".
End ShipmentRouteService.

Module InventoryService.
Definition include : gmap string Value :=
  {[ "include" :=
       VObject (<[ "product" := VTrue ]> {[ "location" := VTrue ]}) ]}.
Definition create `{FilterSemantics} := crudCreate "Inventory".
Definition findAll `{FilterSemantics} := crudFindAll "Inventory" include.
Definition findById `{FilterSemantics} := crudFindById "Inventory" include.
Definition update `{FilterSemantics} := crudUpdate "Inventory".
Definition delete `{FilterSemantics} := crudDelete "Inventory".
End InventoryService.

Module UserService.
Definition create `{FilterSemantics} := crudCreate "User".
Definition findAll `{FilterSemantics} := crudFindAll "User" ∅.
Definition findById `{FilterSemantics} := crudFindById "User" ∅.
(** [findByEmail(email)]: [findUnique({ where: { email } })]. *)
Definition findByEmail `{FilterSemantics} (email : string)
  : M QueryResult :=
  prisma "User" findUnique
    {[ "where" := VObject {[ "email" := VStr email ]} ]}.
Definition update `{FilterSemantics} := crudUpdate "User".
Definition delete `{FilterSemantics} := crudDelete "User".
End UserService.

Module RiskEventService.
(** [include: { suppliers: { include: { supplier: true } }, ... }]. *)
Definition related (field : string) : Value :=
  VObject {[ "include" := VObject {[ field := VTrue ]} ]}.
Definition include : gmap string Value :=
  {[ "include" :=
       VObject (<[ "suppliers" := related "supplier" ]>
               (<[ "products" := related "product" ]>
               (<[ "locations" := related "location" ]>
                  {[ "routes" := related "route" ]}))) ]}.
(** [addX(riskEventId, xId, tenantId)]:
    [prisma.riskEventX.create({ data: { tenantId, riskEventId, xId } })]. *)
Definition link `{FilterSemantics} (junction other : string)
    (riskEventId otherId tenantId : string) : M QueryResult :=
  prisma junction create
    {[ "data" :=
         VObject (<[ "tenantId" := VStr tenantId ]>
                 (<[ "riskEventId" := VStr riskEventId ]>
                    {[ other := VStr otherId ]})) ]}.

(** [removeX(riskEventId, xId)]:
    [prisma.riskEventX.deleteMany({ where: { riskEventId, xId } })]. *)
Definition unlink `{FilterSemantics} (junction other : string)
    (riskEventId otherId : string) : M QueryResult :=
  prisma junction deleteMany
    {[ "where" :=
         VObject (<[ "riskEventId" := VStr riskEventId ]>
                    {[ other := VStr otherId ]}) ]}.

Definition create `{FilterSemantics} := crudCreate "RiskEvent".
Definition findAll `{FilterSemantics} := crudFindAll "RiskEvent" include.
Definition findById `{FilterSemantics} := crudFindById "RiskEvent" include.
Definition update `{FilterSemantics} := crudUpdate "RiskEvent".
Definition delete `{FilterSemantics} := crudDelete "RiskEvent".

Definition addSupplier `{FilterSemantics} :=
  link "RiskEventSupplier" "supplierId".
Definition removeSupplier `{FilterSemantics} :=
  unlink "RiskEventSupplier" "supplierId".
Definition addProduct `{FilterSemantics} :=
  link "RiskEventProduct" "productId".
Definition removeProduct `{FilterSemantics} :=
  unlink "RiskEventProduct" "productId".
Definition addLocation `{FilterSemantics} :=
  link "RiskEventLocation" "locationId".
Definition removeLocation `{FilterSemantics} :=
  unlink "RiskEventLocation" "locationId".
Definition addRoute `{FilterSemantics} :=
  link "RiskEventRoute" "routeId".
Definition removeRoute `{FilterSemantics} :=
  unlink "RiskEventRoute" "routeId".
End RiskEventService.

(* ===================================================================== *)
(** * Vocabulary of the statements *)
(* ===================================================================== *)

(** The entries of [tenantedModels] a lower-cased name can equal, and
    the entries spelt with a capital letter. *)
Definition recognisedNames : list string :=
  [ "supplier"; "product"; "location"; "inventory"; "user" ].

Definition camelCaseNames : list string :=
  filter (λ e, hasUpper e = true) tenantedModels.

(** Every operation kind that reads, writes or removes entity records. *)
Definition entityActions : list PrismaAction := createActions ++ filterActions.

(** A storage request as it leaves the middleware chain. *)
Definition request `{FilterSemantics} (m : string) (a : PrismaAction)
    (arguments : gmap string Value) : M QueryResult :=
  engine (mkParams (Some m) a (Some arguments)).

(** The active tenant, as the guard of the middleware (line 49) and
    [withTenant] (line 167) read the variable: the id it holds, and none
    when it holds [null] or the empty string. *)
Definition activeTenant (w : World) : option string :=
  if truthy (currentTenantId w) then currentTenantId w else None.

(** The world after [setCurrentTenant(T)]. *)
Definition underTenant (T : string) (w : World) : World :=
  snd (setCurrentTenant T w).

(** The business keys: model and key fields. *)
Definition businessKeys : list (string * list string) :=
  [ ("Supplier", ["code"]);
    ("Product", ["sku"]);
    ("User", ["email"]);
    ("ShipmentRoute",
      ["tenantId"; "originLocationId"; "destinationLocationId";
       "transportMode"]);
    ("Inventory", ["tenantId"; "productId"; "locationId"]) ].

(** Two payloads give the same non-null value to every field of a key,
    each as a primitive under the field or by [connect] under its
    relation field. *)
Definition sameKey (t : string) (key : list string)
    (d1 d2 : gmap string Value) : Prop :=
  Forall (λ f, ∃ s, s ≠ SNull ∧ valueAt t d1 f = Some s
                     ∧ valueAt t d2 f = Some s) key.

(** A create payload the client takes to storage: of a form the model
    reads, with every required field. *)
Definition wellFormed (t : string) (payload : Value) : Prop :=
  modelled t payload = true ∧ complete t (spread payload) = true.

(** [child] refers to [parent] through its column [col]. *)
Definition references (child : Row) (col : string) (parent : Row) : Prop :=
  cell child col ≠ SNull ∧ cell child col = cell parent "id".

(** The four junction tables of RiskEvent. *)
Definition junctionTables : list string :=
  [ "risk_event_suppliers"; "risk_event_products"; "risk_event_locations";
    "risk_event_routes" ].

(* ===================================================================== *)
(** * Example data *)
(* ===================================================================== *)

(** The filter semantics used where an example has to run: conditions
    the model does not spell out select nothing. *)
Definition noOtherConditions : FilterSemantics := λ _ _ _ _, false.

Definition locationRow (id tenant code : string) : Row :=
  <[ "id" := SStr id ]> (<[ "tenant_id" := SStr tenant ]>
  (<[ "code" := SStr code ]> (<[ "name" := SStr code ]>
  (<[ "type" := SStr "WAREHOUSE" ]> (<[ "country" := SStr "USA" ]>
   {[ "status" := SStr "ACTIVE" ]}))))).

Definition routeRow (id tenant origin destination mode : string) (days : Z)
  : Row :=
  <[ "id" := SStr id ]> (<[ "tenant_id" := SStr tenant ]>
  (<[ "origin_location_id" := SStr origin ]>
  (<[ "destination_location_id" := SStr destination ]>
  (<[ "transit_time_days" := SNum days ]>
   {[ "transport_mode" := SStr mode ]})))).

(** Tenant A owns locations [la1], [la2] and the route [ra] between
    them; tenant B owns [lb1], [lb2] and the route [rb]. *)
Definition locationsDb : Database :=
  {[ "locations" :=
       [ locationRow "la1" "tenant-a-001" "LOC-A1";
         locationRow "la2" "tenant-a-001" "LOC-A2";
         locationRow "lb1" "tenant-b-001" "LOC-B1";
         locationRow "lb2" "tenant-b-001" "LOC-B2" ] ]}.

Definition routeA : Row := routeRow "ra" "tenant-a-001" "la1" "la2" "TRUCK" 5.

Definition exampleDb : Database :=
  <[ "shipment_routes" :=
       [ routeA; routeRow "rb" "tenant-b-001" "lb1" "lb2" "TRUCK" 7 ] ]>
  locationsDb.

(** A route payload in the scalar form the seed script writes, with or
    without the tenant spelt out. *)
Definition routeData (id : string) (tenant : option string)
    (origin destination mode : string) (days : Z) : Value :=
  let fields : gmap string Value :=
    <[ "id" := VStr id ]> (<[ "originLocationId" := VStr origin ]>
    (<[ "destinationLocationId" := VStr destination ]>
    (<[ "transitTimeDays" := VScalar (SNum days) ]>
     {[ "transportMode" := VStr mode ]}))) in
  VObject match tenant with
          | Some t => <[ "tenantId" := VStr t ]> fields
          | None => fields
          end.

(** [{ connect: { id } }]. *)
Definition connect (id : string) : Value :=
  VObject {[ "connect" := byId id ]}.

(** The same route in the form [Prisma.ShipmentRouteCreateInput] and the
    route tests give it, the endpoints connected by id. *)
Definition routeConnect (id tenant origin destination mode : string)
    (days : Z) : Value :=
  VObject (<[ "id" := VStr id ]> (<[ "tenantId" := VStr tenant ]>
          (<[ "originLocation" := connect origin ]>
          (<[ "destinationLocation" := connect destination ]>
          (<[ "transitTimeDays" := VScalar (SNum days) ]>
           {[ "transportMode" := VStr mode ]}))))).

Definition routeAData : Value :=
  routeData "ra" (Some "tenant-a-001") "la1" "la2" "TRUCK" 5.

(** Tenant A creates its route, on a database that holds the locations. *)
Definition afterRouteCreated `{FilterSemantics} : Outcome QueryResult * World :=
  (setCurrentTenant "tenant-a-001";; ShipmentRouteService.create routeAData)
    (mkWorld None locationsDb).

(** A supplier payload. *)
Definition supplierData (id tenant code : string) : Value :=
  VObject (<[ "id" := VStr id ]> (<[ "tenantId" := VStr tenant ]>
          (<[ "code" := VStr code ]> (<[ "name" := VStr "Acme Corporation" ]>
          (<[ "country" := VStr "USA" ]>
           {[ "rating" := VScalar (SNum 4) ]}))))).

(** A supplier with one product, stocked at one location, and a risk
    event linked to both. *)
Definition supplierRow : Row :=
  <[ "id" := SStr "s1" ]> (<[ "tenant_id" := SStr "tenant-a-001" ]>
  (<[ "code" := SStr "SUP-001" ]> {[ "name" := SStr "Acme Corporation" ]})).

Definition productRow : Row :=
  <[ "id" := SStr "p1" ]> (<[ "tenant_id" := SStr "tenant-a-001" ]>
  (<[ "sku" := SStr "PROD-001" ]> {[ "supplier_id" := SStr "s1" ]})).

Definition inventoryRow : Row :=
  <[ "id" := SStr "i1" ]> (<[ "tenant_id" := SStr "tenant-a-001" ]>
  (<[ "product_id" := SStr "p1" ]> {[ "location_id" := SStr "la1" ]})).

Definition riskEventRow : Row :=
  <[ "id" := SStr "e1" ]> (<[ "tenant_id" := SStr "tenant-a-001" ]>
   {[ "title" := SStr "Port strike" ]}).

Definition linkRow (id other otherId : string) : Row :=
  <[ "id" := SStr id ]> (<[ "tenant_id" := SStr "tenant-a-001" ]>
  (<[ "risk_event_id" := SStr "e1" ]> {[ other := SStr otherId ]})).

Definition catalogDb : Database :=
  <[ "suppliers" := [supplierRow] ]>
  (<[ "products" := [productRow] ]>
  (<[ "inventory" := [inventoryRow] ]>
  (<[ "risk_events" := [riskEventRow] ]>
  (<[ "risk_event_suppliers" := [linkRow "j1" "supplier_id" "s1"] ]>
  (<[ "risk_event_products" := [linkRow "j2" "product_id" "p1"] ]>
   locationsDb))))).

(** A RESTRICT key pointing at [t] has a row referring to a victim. *)
Definition blocked (t : string) (victims : list Row) (d : Database) : Prop :=
  ∃ fk c, fk ∈ referencing t ∧ onDelete fk = Restrict
          ∧ c ∈ rowsOf d (fkTable fk) ∧ refersTo fk victims c = true.

(** [c], a row of table [t'], is not reached from the victims through a
    CASCADE key of the list. *)
Definition spared (fks : list ForeignKey) (victims : list Row) (t' : string)
    (c : Row) : Prop :=
  ∀ fk, fk ∈ fks → fkTable fk = t' → onDelete fk = Cascade →
        refersTo fk victims c = false.

(** Referential integrity: every non-null foreign-key value names a row
    of the parent table. *)
Definition intact (d : Database) : Prop :=
  ∀ fk c, fk ∈ foreignKeys → c ∈ rowsOf d (fkTable fk) →
          cell c (fkColumn fk) ≠ SNull →
          ∃ p, p ∈ rowsOf d (fkParent fk)
               ∧ cell p (fkParentColumn fk) = cell c (fkColumn fk).

(** No two rows of a table collide on a primary key or unique index. *)
Definition distinctRows (d : Database) : Prop :=
  ∀ t cols (i j : nat) r1 r2,
    (t, cols) ∈ uniqueIndexes → i < j →
    rowsOf d t !! i = Some r1 → rowsOf d t !! j = Some r2 →
    collide cols r1 r2 = false.

(** The same on the rows of one table, decided from the first row on. *)
Fixpoint apart (cols : list string) (rows : list Row) : bool :=
  match rows with
  | [] => true
  | r :: rest =>
      forallb (λ r', negb (collide cols r r')) rest && apart cols rest
  end.

(** The clean-up at the head of the seed script: [deleteMany({})] on
    every model, junctions first, on a client of its own that has no
    middleware. *)
Definition cleanExistingData `{FilterSemantics} : M QueryResult :=
  request "RiskEventRoute" deleteMany ∅;;
  request "RiskEventLocation" deleteMany ∅;;
  request "RiskEventProduct" deleteMany ∅;;
  request "RiskEventSupplier" deleteMany ∅;;
  request "Inventory" deleteMany ∅;;
  request "RiskEvent" deleteMany ∅;;
  request "ShipmentRoute" deleteMany ∅;;
  request "Location" deleteMany ∅;;
  request "Product" deleteMany ∅;;
  request "Supplier" deleteMany ∅;;
  request "User" deleteMany ∅.

(* ===================================================================== *)
(** * Proof steps used throughout *)
(* ===================================================================== *)

(** Membership of a concrete list, decided by evaluation. *)
Ltac in_list := apply (bool_decide_unpack _); vm_compute; exact I.

(** The engine on parameters whose model, action and arguments are
    known. *)
Ltac run_engine :=
  unfold engine;
  cbn [model action args argsOf default from_option id mbind option_bind].

(** Case analysis on [x ∈ [a; b; ...]]. *)
Ltac cases_of H :=
  repeat (apply elem_of_cons in H as [H|H]); [..|by apply elem_of_nil in H].

(* ===================================================================== *)
(** * Model names and letter case *)
(* ===================================================================== *)

Lemma lowerAscii_not_upper (a : ascii) : isUpperAscii (lowerAscii a) = false.
Proof. destruct a as [[] [] [] [] [] [] [] []]; reflexivity. Qed.

Lemma toLowerCase_no_upper (s : string) : hasUpper (toLowerCase s) = false.
Proof.
  induction s as [|a s IH]; simpl; [reflexivity|].
  by rewrite lowerAscii_not_upper, IH.
Qed.

Lemma includes_elem_of (l : list string) (s : string) :
  includes l s = true ↔ s ∈ l.
Proof.
  unfold includes. rewrite existsb_exists. split.
  - intros (x & Hx & ->%String.eqb_eq). by apply list_elem_of_In.
  - intros Hs. exists s. split; [by apply list_elem_of_In|apply String.eqb_refl].
Qed.

Lemma isTenantedModel_unfold (n : string) :
  isTenantedModel (Some n)
  = negb (String.eqb (toLowerCase n) "")
    && includes tenantedModels (toLowerCase n).
Proof. reflexivity. Qed.

(** After [toLowerCase], a model name can only equal the five entries of
    [tenantedModels] that have no capital letter. *)
Lemma isTenantedModel_spec (n : string) :
  isTenantedModel (Some n) = true ↔ toLowerCase n ∈ recognisedNames.
Proof.
  rewrite isTenantedModel_unfold.
  pose proof (toLowerCase_no_upper n) as Hup.
  split.
  - intros [_ Hin%includes_elem_of]%andb_true_iff.
    unfold tenantedModels in Hin.
    cases_of Hin; rewrite Hin in Hup |- *;
      first [discriminate Hup | in_list].
  - intros Hin. apply andb_true_iff.
    unfold recognisedNames in Hin.
    cases_of Hin; rewrite Hin; split;
      first [reflexivity | apply includes_elem_of; in_list].
Qed.

Lemma tenantScoped_unfold (n : string) :
  tenantScoped (Some n)
  = includes (toLowerCase <$> tenantedModels) (toLowerCase n).
Proof. reflexivity. Qed.

Lemma isTenantedModel_scoped (m : option string) :
  isTenantedModel m = true → tenantScoped m = true.
Proof.
  destruct m as [n|]; [|discriminate].
  intros Hin%isTenantedModel_spec.
  rewrite tenantScoped_unfold. apply includes_elem_of.
  unfold recognisedNames in Hin.
  cases_of Hin; rewrite Hin; in_list.
Qed.

(** A name with a capital letter is never the lower-cased model name. *)
Lemma capital_never_matches (n e : string) :
  hasUpper e = true → toLowerCase n ≠ e.
Proof.
  intros He Heq. rewrite <- Heq, toLowerCase_no_upper in He. discriminate.
Qed.

(* ===================================================================== *)
(** * The three exits of the middleware *)
(* ===================================================================== *)

Section Middleware.
Context {R : Type}.
Implicit Types (params : MiddlewareParams) (next : MiddlewareParams → M R)
               (w : World).

Lemma middleware_throws params next w :
  truthy (currentTenantId w) = false →
  isRaw (action params) = false →
  tenantIsolationMiddleware params next w = (Thrown tenantRequired, w).
Proof.
  intros Ht Hr. unfold tenantIsolationMiddleware, mbind, M_bind.
  simpl. by rewrite Ht, Hr.
Qed.

Lemma middleware_skips params next w :
  truthy (currentTenantId w) = true ∨ isRaw (action params) = true →
  isTenantedModel (model params) = false →
  tenantIsolationMiddleware params next w = next params w.
Proof.
  intros Hg Hm. unfold tenantIsolationMiddleware, mbind, M_bind. simpl.
  rewrite Hm. by destruct Hg as [-> | ->]; rewrite ?andb_false_r.
Qed.

Lemma middleware_scopes params scoped next w :
  truthy (currentTenantId w) = true ∨ isRaw (action params) = true →
  isTenantedModel (model params) = true →
  scopeParams (currentTenantId w) params = Returned scoped →
  tenantIsolationMiddleware params next w = next scoped w.
Proof.
  intros Hg Hm Hs. unfold tenantIsolationMiddleware, mbind, M_bind. simpl.
  rewrite Hm, Hs. by destruct Hg as [-> | ->]; rewrite ?andb_false_r.
Qed.

Lemma middleware_fails params e next w :
  truthy (currentTenantId w) = true ∨ isRaw (action params) = true →
  isTenantedModel (model params) = true →
  scopeParams (currentTenantId w) params = Thrown e →
  tenantIsolationMiddleware params next w = (Thrown e, w).
Proof.
  intros Hg Hm Hs. unfold tenantIsolationMiddleware, mbind, M_bind. simpl.
  rewrite Hm, Hs. by destruct Hg as [-> | ->]; rewrite ?andb_false_r.
Qed.

Lemma scopeParams_raw t params :
  isRaw (action params) = true → scopeParams t params = Returned params.
Proof.
  unfold scopeParams. by destruct params as [m [] a].
Qed.
End Middleware.

(* ===================================================================== *)
(** * Precondition, pass-through and scoped restore *)
(* ===================================================================== *)

(** C2. With no active tenant (the variable is [null], or holds the
    empty string, which the guard treats alike), every create,
    createMany, read, count, aggregate, groupBy, update, upsert and
    delete fails with the tenant-required error, on every model and so
    on every tenant-scoped one.  The error comes from the middleware
    itself: whatever the continuation [next] would do, the outcome is the
    error and the world is the one the call started in. *)
Theorem precondition_enforced {R} (params : MiddlewareParams)
    (next : MiddlewareParams → M R) (w : World) :
  truthy (currentTenantId w) = false →
  action params ∈ entityActions →
  tenantIsolationMiddleware params next w = (Thrown tenantRequired, w).
Proof.
  intros Ht Ha. apply middleware_throws; [exact Ht|].
  unfold entityActions, createActions, filterActions in Ha. simpl in Ha.
  cases_of Ha; by rewrite Ha.
Qed.

Lemma precondition_enforced_witness :
  tenantIsolationMiddleware
    (mkParams (Some "Supplier") findMany (Some ∅))
    (λ p, mret p) (mkWorld None ∅)
  = (Thrown tenantRequired, mkWorld None ∅).
Proof.
  apply precondition_enforced; [reflexivity|].
  by apply (bool_decide_unpack _).
Defined.

(** C5, as the code has it.  A raw query, and an operation on a model
    outside the tenant-scoped set, reaches [next] with its parameters
    untouched; but the tenant guard comes first and exempts the raw
    actions only, so without an active tenant an operation on a model
    outside the set fails with the tenant-required error. *)
Theorem passthrough {R} (params : MiddlewareParams)
    (next : MiddlewareParams → M R) (w : World) :
  isRaw (action params) = true ∨ tenantScoped (model params) = false →
  tenantIsolationMiddleware params next w
  = if negb (truthy (currentTenantId w)) && negb (isRaw (action params))
    then (Thrown tenantRequired, w)
    else next params w.
Proof.
  intros Hc.
  destruct (negb (truthy (currentTenantId w)) && negb (isRaw (action params)))
    eqn:Hg.
  - apply andb_true_iff in Hg as [Ht%negb_true_iff Hr%negb_true_iff].
    by apply middleware_throws.
  - assert (truthy (currentTenantId w) = true ∨ isRaw (action params) = true)
      as Hg'.
    { apply andb_false_iff in Hg as [Hg%negb_false_iff|Hg%negb_false_iff];
        auto. }
    destruct (isTenantedModel (model params)) eqn:Hm.
    + destruct Hc as [Hr|Hs].
      * apply middleware_scopes; [done..|]. by apply scopeParams_raw.
      * apply isTenantedModel_scoped in Hm. congruence.
    + by apply middleware_skips.
Qed.

Lemma passthrough_witness :
  tenantIsolationMiddleware
    (mkParams None executeRaw (Some ∅)) (λ p, mret p) (mkWorld None ∅)
  = (Returned (mkParams None executeRaw (Some ∅)), mkWorld None ∅).
Proof.
  exact (passthrough (mkParams None executeRaw (Some ∅)) (λ p, mret p)
           (mkWorld None ∅) (or_introl eq_refl)).
Defined.

(** C5 as stated fails: without a tenant, a read on a model outside the
    tenant-scoped set does not reach storage. *)
Lemma passthrough_counterexample :
  let params := mkParams (Some "AuditLog") findMany (Some ∅) in
  let next : MiddlewareParams → M MiddlewareParams := λ p, mret p in
  let w := mkWorld None ∅ in
  tenantScoped (model params) = false ∧
  isRaw (action params) = false ∧
  tenantIsolationMiddleware params next w = (Thrown tenantRequired, w) ∧
  tenantIsolationMiddleware params next w ≠ next params w.
Proof. repeat split; [reflexivity..|discriminate]. Qed.

(** C8.  [withTenant] runs the operation with the given tenant in the
    variable, keeps its outcome (a value or an exception) and its effects
    on the database, and on both exits puts the previous tenant back: the
    active tenant after the call is the active tenant before it.  The
    variable holds the previous id again, or [null] when there was no
    active tenant before. *)
Theorem withTenant_restores {T} (tenantId : string) (operation : M T)
    (w : World) :
  let ran := operation (mkWorld (Some tenantId) (db w)) in
  withTenant tenantId operation w
  = (fst ran, mkWorld (activeTenant w) (db (snd ran)))
  ∧ activeTenant (snd (withTenant tenantId operation w)) = activeTenant w.
Proof.
  assert (withTenant tenantId operation w
          = (fst (operation (mkWorld (Some tenantId) (db w))),
             mkWorld (activeTenant w)
               (db (snd (operation (mkWorld (Some tenantId) (db w)))))))
    as Hrun.
  { unfold withTenant, tryFinally, mbind, M_bind, getCurrentTenant,
      setCurrentTenant, clearCurrentTenant, activeTenant.
    simpl. destruct (operation _) as [r w1]. simpl.
    destruct (currentTenantId w) as [p|]; [|reflexivity].
    destruct (truthy (Some p)); reflexivity. }
  split; [exact Hrun|]. rewrite Hrun. unfold activeTenant. simpl.
  destruct (truthy (currentTenantId w)) eqn:Ht; [by rewrite Ht|reflexivity].
Qed.

(** With no active tenant before the call the variable comes back as
    [null], also where it held the empty string. *)
Lemma withTenant_empty_previous :
  let w := mkWorld (Some "") ∅ in
  let w' := snd (withTenant "tenant-a" (mret tt) w) in
  currentTenantId w' = None ∧ activeTenant w' = activeTenant w.
Proof. split; reflexivity. Qed.

(* ===================================================================== *)
(** * What the middleware forwards for the models it recognises *)
(* ===================================================================== *)

Lemma scopeParams_filter t params :
  action params ∈ filterActions → scopeParams t params = scopeWhere t params.
Proof.
  intros Ha. unfold filterActions in Ha. unfold scopeParams.
  cases_of Ha; by rewrite Ha.
Qed.

Lemma whereScoped_where t a :
  getProp (whereScoped t a) "where" = withTenantId t (getProp a "where").
Proof. unfold whereScoped, getProp. by rewrite lookup_insert_eq. Qed.

Lemma whereScoped_other t (a : gmap string Value) k :
  k ≠ "where" → whereScoped t a !! k = a !! k.
Proof. intros Hk. unfold whereScoped. by rewrite lookup_insert_ne. Qed.

Lemma withTenantId_tenant t v :
  spread (withTenantId t v) !! "tenantId" = Some (ofNullable t).
Proof. unfold withTenantId. simpl. by rewrite lookup_insert_eq. Qed.

Lemma withTenantId_other t v k :
  k ≠ "tenantId" → spread (withTenantId t v) !! k = spread v !! k.
Proof. intros Hk. unfold withTenantId. simpl. by rewrite lookup_insert_ne. Qed.

(** On a recognised model, with a tenant set, a call that has an
    argument object is forwarded with a filter whose [tenantId] is the
    active tenant and that keeps the caller's other conditions. *)
Lemma recognised_filter_scoped {R} (params : MiddlewareParams)
    (a : gmap string Value) (next : MiddlewareParams → M R) (w : World) :
  truthy (currentTenantId w) = true →
  isTenantedModel (model params) = true →
  action params ∈ filterActions →
  args params = Some a →
  tenantIsolationMiddleware params next w
  = next (mkParams (model params) (action params)
            (Some (whereScoped (currentTenantId w) a))) w.
Proof.
  intros Ht Hm Ha Hargs. apply middleware_scopes; [auto..|].
  rewrite scopeParams_filter by done.
  unfold scopeWhere, onArgs. by rewrite Hargs.
Qed.

(** Two argument objects that differ only in the caller's
    [where.tenantId] are forwarded alike. *)
Lemma recognised_filter_noninterference t (a1 a2 : gmap string Value) :
  delete "where" a1 = delete "where" a2 →
  delete "tenantId" (spread (getProp a1 "where"))
  = delete "tenantId" (spread (getProp a2 "where")) →
  whereScoped t a1 = whereScoped t a2.
Proof.
  intros Hargs Hw. unfold whereScoped, withTenantId.
  rewrite <- (insert_delete_eq a1), <- (insert_delete_eq a2).
  rewrite Hargs. f_equal. f_equal.
  rewrite <- (insert_delete_eq (spread (getProp a1 "where"))).
  rewrite <- (insert_delete_eq (spread (getProp a2 "where"))).
  by rewrite Hw.
Qed.

(** On a recognised model, [create] forwards a payload stamped with the
    active tenant, whatever [tenantId] the caller wrote. *)
Lemma recognised_create_stamped {R} (params : MiddlewareParams)
    (a : gmap string Value) (next : MiddlewareParams → M R) (w : World) :
  truthy (currentTenantId w) = true →
  isTenantedModel (model params) = true →
  action params = create →
  args params = Some a →
  tenantIsolationMiddleware params next w
  = next (mkParams (model params) create
            (Some (dataStamped (currentTenantId w) a))) w
  ∧ spread (getProp (dataStamped (currentTenantId w) a) "data")
      !! "tenantId" = Some (ofNullable (currentTenantId w)).
Proof.
  intros Ht Hm Ha Hargs. split.
  - apply middleware_scopes; [auto..|].
    unfold scopeParams. rewrite Ha.
    unfold stampData, onArgs. by rewrite Hargs, Ha.
  - unfold dataStamped, getProp. rewrite lookup_insert_eq. simpl.
    by rewrite lookup_insert_eq.
Qed.

(** And [createMany] stamps every record of the array. *)
Lemma recognised_createMany_stamped {R} (params : MiddlewareParams)
    (a : gmap string Value) (next : MiddlewareParams → M R) (w : World)
    (records : list Value) :
  truthy (currentTenantId w) = true →
  isTenantedModel (model params) = true →
  action params = createMany →
  args params = Some a →
  getProp a "data" = VArray records →
  ∃ stamped,
    tenantIsolationMiddleware params next w
    = next (mkParams (model params) createMany
              (Some (<[ "data" := VArray stamped ]> a))) w
    ∧ length stamped = length records
    ∧ Forall (λ v, spread v !! "tenantId"
                   = Some (ofNullable (currentTenantId w))) stamped.
Proof.
  intros Ht Hm Ha Hargs Hd.
  exists (withTenantId (currentTenantId w) <$> records).
  split; [|split].
  - apply middleware_scopes; [auto..|].
    unfold scopeParams. rewrite Ha.
    unfold stampMany, onArgs, manyStamped. by rewrite Hargs, Hd, Ha.
  - by rewrite length_fmap.
  - apply Forall_fmap, Forall_forall. intros v _. apply withTenantId_tenant.
Qed.

(** Without an argument object the same calls end in a TypeError, before
    [next]. *)
Lemma recognised_without_arguments {R} (params : MiddlewareParams)
    (next : MiddlewareParams → M R) (w : World) :
  truthy (currentTenantId w) = true →
  isTenantedModel (model params) = true →
  action params ∈ entityActions →
  args params = None →
  tenantIsolationMiddleware params next w = (Thrown TypeError, w).
Proof.
  intros Ht Hm Ha Hargs. apply middleware_fails; [auto..|].
  unfold entityActions, createActions, filterActions in Ha. simpl in Ha.
  unfold scopeParams, scopeWhere, stampData, stampMany, onArgs.
  cases_of Ha; by rewrite Ha, Hargs.
Qed.

(* ===================================================================== *)
(** * Rows, payloads and filters *)
(* ===================================================================== *)

Lemma tableOf_known (m t : string) :
  tableOf m = Some t → t ∈ (snd <$> modelTables).
Proof.
  unfold tableOf. destruct (find _ modelTables) as [p|] eqn:Hf; [|done].
  intros [= <-]. apply find_some in Hf as [Hin _].
  apply list_elem_of_fmap. exists p. split; [done|by apply list_elem_of_In].
Qed.

Lemma tenant_field_everywhere (m t : string) :
  tableOf m = Some t →
  isField t "tenantId" = true ∧ "tenant_id" ∈ columnsOf t.
Proof.
  intros Ht%tableOf_known. unfold modelTables in Ht. simpl in Ht.
  cases_of Ht; rewrite Ht; split; first [reflexivity | in_list].
Qed.

Lemma id_field_everywhere (m t : string) :
  tableOf m = Some t → isField t "id" = true.
Proof.
  intros Ht%tableOf_known. unfold modelTables in Ht. simpl in Ht.
  cases_of Ht; by rewrite Ht.
Qed.

Lemma rowOfColumns_lookup (cols : list string) (g : string → option Scalar)
    (c : string) :
  (list_to_map (omap (λ c, pair c <$> g c) cols) : Row) !! c
  = if decide (c ∈ cols) then g c else None.
Proof.
  induction cols as [|c0 cols IH].
  - change (omap _ []) with (@nil (string * Scalar)).
    rewrite list_to_map_nil, lookup_empty.
    destruct (decide (c ∈ [])) as [Hin|]; [by apply elem_of_nil in Hin|done].
  - cbn [omap list_omap].
    destruct (decide (c ∈ c0 :: cols)) as [Hin|Hnin].
    + destruct (decide (c = c0)) as [->|Hne].
      * destruct (g c0) as [s|] eqn:Hs; simpl.
        -- by rewrite lookup_insert_eq.
        -- rewrite IH. by destruct (decide (c0 ∈ cols)).
      * apply elem_of_cons in Hin as [?|Hin]; [done|].
        rewrite decide_True in IH by done.
        destruct (g c0) as [s|]; simpl; [|done].
        by rewrite lookup_insert_ne.
    + apply not_elem_of_cons in Hnin as [Hne Hnin].
      rewrite decide_False in IH by done.
      destruct (g c0) as [s|]; simpl; [|done].
      by rewrite lookup_insert_ne.
Qed.

Lemma rowOfData_lookup (t : string) (data : gmap string Value) (c : string) :
  c ∈ columnsOf t → rowOfData t data !! c = valueAt t data (fieldOf c).
Proof.
  intros Hc. unfold rowOfData.
  rewrite (rowOfColumns_lookup _ (λ c, valueAt t data (fieldOf c))).
  by rewrite decide_True.
Qed.

(** A primitive written under a field is the value of the field. *)
Lemma valueAt_scalar (t : string) (data : gmap string Value) (f : string)
    (s : Scalar) :
  data !! f = Some (VScalar s) → valueAt t data f = Some s.
Proof. intros Hf. unfold valueAt, scalarAt. by rewrite Hf. Qed.

(** A row built from a stamped payload carries the stamp. *)
Lemma rowOfData_tenant (m t : string) (T : string) (v : Value) :
  tableOf m = Some t →
  cell (rowOfData t (spread (withTenantId (Some T) v))) "tenant_id" = SStr T.
Proof.
  intros [_ Hc]%tenant_field_everywhere. unfold cell.
  rewrite rowOfData_lookup by done.
  change (fieldOf "tenant_id") with "tenantId".
  by rewrite (valueAt_scalar _ _ _ (SStr T)) by apply withTenantId_tenant.
Qed.

(** The two forms of a route payload describe the same row. *)
Lemma routeConnect_row (id tenant origin destination mode : string) (days : Z) :
  rowOfData "shipment_routes"
    (spread (routeConnect id tenant origin destination mode days))
  = routeRow id tenant origin destination mode days
  ∧ rowOfData "shipment_routes"
      (spread (routeData id (Some tenant) origin destination mode days))
    = routeRow id tenant origin destination mode days.
Proof. split; reflexivity. Qed.

(** A payload that connects one endpoint and writes the key of the other
    is of neither input type, a nested create is outside the model, and
    a [null] tenant is refused as invalid. *)
Lemma payloads_not_taken (id tenant origin destination mode : string)
    (days : Z) :
  let route := spread (routeConnect id tenant origin destination mode days) in
  newRow "shipment_routes"
    (VObject (<[ "destinationLocationId" := VStr destination ]>
                (delete "destinationLocation" route)))
  = Thrown notInterpreted
  ∧ newRow "shipment_routes"
      (VObject (<[ "originLocation" :=
                     VObject {[ "create" := VObject ∅ ]} ]> route))
    = Thrown notInterpreted
  ∧ newRow "shipment_routes"
      (VObject (<[ "tenantId" := VScalar SNull ]> route))
    = Thrown ValidationError
  ∧ newRow "shipment_routes" (VObject (delete "transportMode" route))
    = Thrown ValidationError.
Proof. repeat split; reflexivity. Qed.

(** The client takes a create payload to storage exactly when it is well
    formed, and then as the row of its columns. *)
Lemma newRow_Returned (t : string) (payload : Value) (r : Row) :
  newRow t payload = Returned r
  ↔ wellFormed t payload ∧ r = rowOfData t (spread payload).
Proof.
  unfold newRow, wellFormed.
  destruct (modelled t payload), (complete t (spread payload)); simpl;
    split; try discriminate; try (by intros [[? ?] _]).
  - by intros [= <-].
  - by intros [_ ->].
Qed.

Lemma newRow_wellFormed (t : string) (payload : Value) :
  wellFormed t payload →
  newRow t payload = Returned (rowOfData t (spread payload)).
Proof. intros Hw. by apply newRow_Returned. Qed.

Section Filters.
Context `{FilterSemantics}.

Lemma matches_lookup (t : string) (w : gmap string Value) (r : Row)
    (k : string) (v : Value) :
  matches t w r = true → w !! k = Some v → condition t k v r = true.
Proof.
  unfold matches. intros Hm%bool_decide_eq_true Hk.
  by apply (map_Forall_lookup_1 _ _ _ _ Hm Hk).
Qed.

(** A filter that carries [tenantId: T] selects rows of tenant [T] only. *)
Lemma matches_tenant (t : string) (w : gmap string Value) (r : Row)
    (T : string) :
  isField t "tenantId" = true →
  w !! "tenantId" = Some (VStr T) →
  matches t w r = true → cell r "tenant_id" = SStr T.
Proof.
  intros Hf Hw Hm. pose proof (matches_lookup _ _ _ _ _ Hm Hw) as Hc.
  unfold condition, VStr in Hc. rewrite Hf in Hc.
  by apply bool_decide_eq_true in Hc.
Qed.

Lemma selectRows_elem_of (t : string) (v : Value) (d : Database) (r : Row) :
  r ∈ selectRows t v d ↔ matches t (spread v) r = true ∧ r ∈ rowsOf d t.
Proof. unfold selectRows. by rewrite list_elem_of_filter. Qed.

(** The rows a scoped filter selects all belong to the active tenant. *)
Lemma selectRows_scoped (m t : string) (T : string) (v : Value)
    (d : Database) (r : Row) :
  tableOf m = Some t →
  r ∈ selectRows t (withTenantId (Some T) v) d →
  cell r "tenant_id" = SStr T ∧ r ∈ rowsOf d t.
Proof.
  intros [Hf _]%tenant_field_everywhere [Hm Hr]%selectRows_elem_of.
  split; [|done].
  eapply matches_tenant; [exact Hf| |exact Hm].
  apply withTenantId_tenant.
Qed.

(** So a row of another tenant is not selected. *)
Lemma selectRows_excludes (m t : string) (T1 T2 : string) (v : Value)
    (d : Database) (r : Row) :
  tableOf m = Some t → T1 ≠ T2 →
  cell r "tenant_id" = SStr T1 →
  r ∉ selectRows t (withTenantId (Some T2) v) d.
Proof.
  intros Ht Hne Hr Hin.
  destruct (selectRows_scoped _ _ _ _ _ _ Ht Hin) as [Hr' _]. congruence.
Qed.
End Filters.

(* ===================================================================== *)
(** * End to end, on the models the middleware recognises *)
(* ===================================================================== *)

Section Recognised.
Context `{FilterSemantics}.
Variables (m t T : string) (w : World).
Hypothesis recognised : isTenantedModel (Some m) = true.
Hypothesis stored_in : tableOf m = Some t.
Hypothesis active : currentTenantId w = Some T.
Hypothesis non_empty : T ≠ "".

Lemma active_truthy : truthy (currentTenantId w) = true.
Proof.
  rewrite active. simpl. apply negb_true_iff.
  by apply String.eqb_neq.
Qed.

(** [findAll] answers with rows of the active tenant only. *)
Lemma recognised_findAll (include : gmap string Value) (where_ : Value) :
  ∃ rows,
    crudFindAll m include where_ w = (Returned (QRows rows), w)
    ∧ ∀ r, r ∈ rows → cell r "tenant_id" = SStr T ∧ r ∈ rowsOf (db w) t.
Proof.
  unfold crudFindAll, prisma, prismaCall.
  rewrite (recognised_filter_scoped _ (<[ "where" := where_ ]> include))
    by (auto using active_truthy; in_list).
  run_engine.
  rewrite stored_in.
  eexists. split; [reflexivity|].
  intros r Hr. rewrite whereScoped_where, active in Hr.
  eapply selectRows_scoped; [exact stored_in|exact Hr].
Qed.

(** An update by id of a record that belongs to another tenant selects
    no row: it changes nothing, and is reported as not found when the
    payload is one the client reads. *)
Lemma recognised_update_blocked (id : string) (data : Value) :
  (∀ r, r ∈ rowsOf (db w) t → cell r "id" = SStr id →
        cell r "tenant_id" ≠ SStr T) →
  ∃ e, crudUpdate m id data w = (Thrown e, w)
       ∧ (∀ changes, changedColumns t data = Returned changes → e = NotFound).
Proof.
  intros Hforeign. unfold crudUpdate, prisma, prismaCall.
  rewrite (recognised_filter_scoped _
             (<[ "where" := byId id ]> {[ "data" := data ]}))
    by (auto using active_truthy; in_list).
  run_engine.
  rewrite stored_in, whereScoped_where, active.
  assert (getProp (whereScoped (Some T)
                     (<[ "where" := byId id ]> {[ "data" := data ]})) "data"
          = data) as ->.
  { unfold getProp. rewrite whereScoped_other by done.
    rewrite lookup_insert_ne by done. by rewrite lookup_singleton_eq. }
  assert (getProp (<[ "where" := byId id ]> {[ "data" := data ]}) "where"
          = byId id) as ->.
  { unfold getProp. by rewrite lookup_insert_eq. }
  destruct (changedColumns t data) as [changes|e] eqn:Hch;
    [|exists e; split; [reflexivity|discriminate]].
  exists NotFound. split; [|done].
  destruct (selectRows _ _ _) as [|r rest] eqn:Hsel; [reflexivity|].
  exfalso.
  assert (r ∈ selectRows t (withTenantId (Some T) (byId id)) (db w)) as Hr
    by (rewrite Hsel; apply list_elem_of_here).
  destruct (selectRows_scoped _ _ _ _ _ _ stored_in Hr) as [Hten Hin].
  apply selectRows_elem_of in Hr as [Hm _].
  apply (Hforeign r Hin); [|exact Hten].
  assert (condition t "id" (VStr id) r = true) as Hc.
  { eapply matches_lookup; [exact Hm|].
    rewrite withTenantId_other by done. unfold byId. simpl.
    by rewrite lookup_singleton_eq. }
  unfold condition, VStr in Hc.
  rewrite (id_field_everywhere _ _ stored_in) in Hc.
  by apply bool_decide_eq_true in Hc.
Qed.

(** A create stores a row owned by the active tenant, whatever
    [tenantId] the payload carried. *)
Lemma recognised_create_stored (data : Value) (q : QueryResult) (w' : World) :
  crudCreate m data w = (Returned q, w') →
  ∃ r, q = QRecord (Some r)
       ∧ cell r "tenant_id" = SStr T
       ∧ r ∈ rowsOf (db w') t.
Proof.
  unfold crudCreate, prisma, prismaCall.
  destruct (recognised_create_stamped
              (mkParams (Some m) create (Some {[ "data" := data ]}))
              {[ "data" := data ]} engine w)
    as [-> _]; [apply active_truthy|exact recognised|reflexivity..|].
  run_engine.
  rewrite stored_in.
  assert (getProp (dataStamped (currentTenantId w) {[ "data" := data ]}) "data"
          = withTenantId (Some T) data) as ->.
  { unfold dataStamped, getProp.
    by rewrite lookup_insert_eq, lookup_singleton_eq, active. }
  destruct (newRow t _) as [r|e] eqn:Hrow; [|discriminate].
  apply newRow_Returned in Hrow as [_ ->].
  unfold liftDb, insertRow.
  destruct (_ || _); [discriminate|].
  intros [= <- <-]. eexists. split; [reflexivity|]. split.
  - by apply (rowOfData_tenant m).
  - simpl. unfold rowsOf at 1. rewrite lookup_insert_eq. simpl.
    apply elem_of_app. right. apply list_elem_of_here.
Qed.
End Recognised.

(* ===================================================================== *)
(** * The models spelt in camel case *)
(* ===================================================================== *)

Lemma camelCaseNames_lowered :
  toLowerCase <$> camelCaseNames
  = [ "shipmentroute"; "riskevent"; "riskeventsupplier"; "riskeventproduct";
      "riskeventlocation"; "riskeventroute" ].
Proof. reflexivity. Qed.

(** [tenantedModels] is compared with the lower-cased model name, so its
    six camel-case entries never match: ShipmentRoute, RiskEvent and the
    four junction models are taken for untenanted and forwarded
    unchanged. *)
Lemma camel_case_model_skipped {R} (m : string) (a : PrismaAction)
    (arguments : option (gmap string Value)) (next : MiddlewareParams → M R)
    (w : World) :
  toLowerCase m ∈ (toLowerCase <$> camelCaseNames) →
  truthy (currentTenantId w) = true →
  tenantScoped (Some m) = true
  ∧ tenantIsolationMiddleware (mkParams (Some m) a arguments) next w
    = next (mkParams (Some m) a arguments) w.
Proof.
  rewrite camelCaseNames_lowered. intros Hm Ht. split.
  - rewrite tenantScoped_unfold. apply includes_elem_of.
    cases_of Hm; rewrite Hm; in_list.
  - apply middleware_skips; [by left|].
    apply not_true_is_false. intros Hr%isTenantedModel_spec.
    unfold recognisedNames in Hr.
    cases_of Hm; rewrite Hm in Hr; cases_of Hr; discriminate Hr.
Qed.

(** C1, on the code.  ShipmentRoute is tenant-scoped, yet a route that
    tenant A created is returned by tenant B's find-all and read-one,
    counted by its count, and removed by its delete: the filter reaches
    storage without a tenant condition. *)
Theorem route_isolation_broken `{FilterSemantics} :
  let w := underTenant "tenant-b-001" (snd afterRouteCreated) in
  tenantScoped (Some "ShipmentRoute") = true
  ∧ fst afterRouteCreated = Returned (QRecord (Some routeA))
  ∧ fst (ShipmentRouteService.findAll VUndefined w)
    = Returned (QRows [routeA])
  ∧ fst (ShipmentRouteService.findById "ra" w)
    = Returned (QRecord (Some routeA))
  ∧ fst (prisma "ShipmentRoute" count ∅ w) = Returned (QCount 1)
  ∧ fst (ShipmentRouteService.delete "ra" w)
    = Returned (QRecord (Some routeA))
  ∧ rowsOf (db (snd (ShipmentRouteService.delete "ra" w))) "shipment_routes"
    = [].
Proof. vm_compute. repeat split; reflexivity. Qed.

(** C3, on the code.  A create (or createMany) on ShipmentRoute is
    forwarded as the caller wrote it, stamped with nothing: a payload
    naming another tenant is stored under that tenant. *)
Theorem route_create_not_stamped `{FilterSemantics} {R}
    (next : MiddlewareParams → M R) (a : PrismaAction) (data : Value) :
  let w := mkWorld (Some "tenant-a-001") locationsDb in
  let params :=
    mkParams (Some "ShipmentRoute") a (Some {[ "data" := data ]}) in
  let foreign := routeData "rc" (Some "tenant-b-001") "la1" "la2" "AIR" 3 in
  tenantScoped (Some "ShipmentRoute") = true
  ∧ tenantIsolationMiddleware params next w = next params w
  ∧ fst (ShipmentRouteService.create foreign w)
    = Returned (QRecord (Some (routeRow "rc" "tenant-b-001" "la1" "la2" "AIR" 3)))
  ∧ rowsOf (db (snd (ShipmentRouteService.create foreign w)))
           "shipment_routes"
    = [routeRow "rc" "tenant-b-001" "la1" "la2" "AIR" 3].
Proof.
  intros w params foreign.
  destruct (camel_case_model_skipped "ShipmentRoute" a
              (Some {[ "data" := data ]}) next w) as [Hs Hf];
    [in_list|reflexivity|].
  split; [exact Hs|]. split; [exact Hf|].
  vm_compute. split; reflexivity.
Qed.

(** The route tests create their routes without [tenantId] and expect
    the active tenant on the record; the payload reaches the client as
    written, and the client refuses it, the field being required. *)
Lemma route_without_tenant_refused `{FilterSemantics} :
  let w := mkWorld (Some "tenant-a-001") locationsDb in
  ShipmentRouteService.create (routeData "rc" None "la1" "la2" "AIR" 3) w
  = (Thrown ValidationError, w).
Proof. vm_compute. reflexivity. Qed.

(** C4, on the code.  Tenant B's update of the route that tenant A
    created succeeds, and tenant A reads the new value back. *)
Theorem route_update_crosses_tenants `{FilterSemantics} :
  let wB := underTenant "tenant-b-001" (snd afterRouteCreated) in
  let changes :=
    VObject {[ "transitTimeDays" := VScalar (SNum 9) ]} in
  let updated := ShipmentRouteService.update "ra" changes wB in
  let changed := routeRow "ra" "tenant-a-001" "la1" "la2" "TRUCK" 9 in
  fst afterRouteCreated = Returned (QRecord (Some routeA))
  ∧ fst updated = Returned (QRecord (Some changed))
  ∧ fst (ShipmentRouteService.findById "ra"
           (underTenant "tenant-a-001" (snd updated)))
    = Returned (QRecord (Some changed))
  ∧ cell routeA "transit_time_days" ≠ cell changed "transit_time_days".
Proof. vm_compute. repeat split; try reflexivity. discriminate. Qed.

(** C10, on the code.  On ShipmentRoute the caller's [where.tenantId]
    survives: under tenant A, a filter naming tenant B is forwarded as
    written and answers with tenant B's route. *)
Theorem route_filter_not_overridden `{FilterSemantics} {R}
    (next : MiddlewareParams → M R) (a : PrismaAction) :
  let w := mkWorld (Some "tenant-a-001") exampleDb in
  let filter_b := VObject {[ "tenantId" := VStr "tenant-b-001" ]} in
  let params :=
    mkParams (Some "ShipmentRoute") a (Some {[ "where" := filter_b ]}) in
  tenantScoped (Some "ShipmentRoute") = true
  ∧ tenantIsolationMiddleware params next w = next params w
  ∧ spread (getProp (argsOf params) "where") !! "tenantId"
    = Some (VStr "tenant-b-001")
  ∧ fst (ShipmentRouteService.findAll filter_b w)
    = Returned (QRows [routeRow "rb" "tenant-b-001" "lb1" "lb2" "TRUCK" 7]).
Proof.
  intros w filter_b params.
  destruct (camel_case_model_skipped "ShipmentRoute" a
              (Some {[ "where" := filter_b ]}) next w) as [Hs Hf];
    [in_list|reflexivity|].
  split; [exact Hs|]. split; [exact Hf|].
  vm_compute. split; reflexivity.
Qed.

(* ===================================================================== *)
(** * Inserts: unique indexes *)
(* ===================================================================== *)

Lemma insertRow_Some (t : string) (r : Row) (d d' : Database) :
  insertRow t r d = Some d' →
  d' = <[t := rowsOf d t ++ [r]]> d
  ∧ violatesUnique t r (rowsOf d t) = false
  ∧ violatesForeignKey d t r = false.
Proof.
  unfold insertRow.
  destruct (violatesUnique _ _ _) eqn:Hu, (violatesForeignKey _ _ _) eqn:Hf;
    simpl; try discriminate.
  by intros [= <-].
Qed.

Lemma rowsOf_insert (t : string) (rows : list Row) (d : Database) :
  rowsOf (<[t := rows]> d) t = rows.
Proof. unfold rowsOf. by rewrite lookup_insert_eq. Qed.

Lemma rowsOf_insert_ne (t t' : string) (rows : list Row) (d : Database) :
  t ≠ t' → rowsOf (<[t := rows]> d) t' = rowsOf d t'.
Proof. intros Hne. unfold rowsOf. by rewrite lookup_insert_ne. Qed.

Lemma violatesUnique_intro (t : string) (cols : list string) (r r' : Row)
    (existing : list Row) :
  (t, cols) ∈ uniqueIndexes → r' ∈ existing → collide cols r r' = true →
  violatesUnique t r existing = true.
Proof.
  intros Hix Hr Hc. unfold violatesUnique. apply existsb_exists.
  exists (t, cols). split; [by apply list_elem_of_In|]. simpl.
  rewrite String.eqb_refl. simpl. apply existsb_exists.
  exists r'. split; [by apply list_elem_of_In|done].
Qed.

(** Payloads with the same key give rows that collide on the columns of
    the key. *)
Lemma collide_of_sameKey (t : string) (cols key : list string)
    (d1 d2 : gmap string Value) :
  sameKey t key d1 d2 →
  Forall (λ c, c ∈ columnsOf t ∧ fieldOf c ∈ key) cols →
  collide cols (rowOfData t d2) (rowOfData t d1) = true.
Proof.
  intros Hk Hcols. unfold collide. apply forallb_forall.
  intros c Hc%list_elem_of_In. apply bool_decide_eq_true.
  rewrite Forall_forall in Hcols. destruct (Hcols c Hc) as [Hcol Hf].
  unfold sameKey in Hk. rewrite Forall_forall in Hk.
  destruct (Hk _ Hf) as (s & Hs & H1 & H2).
  unfold cell. rewrite !rowOfData_lookup by done. rewrite H1, H2. done.
Qed.

(** No relation field is called [tenantId], so the stamp changes the
    value of no other field. *)
Lemma relationOver_known (t f rel : string) :
  relationOver t f = Some rel → (t, (rel, f)) ∈ relationFields.
Proof.
  unfold relationOver, relationsOf.
  destruct (find _ _) as [[rel' f']|] eqn:Hf; [|discriminate].
  intros [= <-]. apply find_some in Hf as [Hin Heq%String.eqb_eq].
  simpl in Heq. subst f'.
  apply list_elem_of_In, list_elem_of_fmap in Hin as ([t' p] & -> & Hin).
  by apply list_elem_of_filter in Hin as [<- Hin].
Qed.

Lemma valueAt_stamped (t : string) (T : option string) (v : Value)
    (f : string) :
  f ≠ "tenantId" →
  valueAt t (spread (withTenantId T v)) f = valueAt t (spread v) f.
Proof.
  intros Hf. unfold valueAt, scalarAt. rewrite withTenantId_other by done.
  destruct (relationOver t f) as [rel|] eqn:Hrel; [|done].
  assert (rel ≠ "tenantId") as Hne.
  { apply relationOver_known in Hrel. unfold relationFields in Hrel.
    cases_of Hrel; by injection Hrel as _ -> _. }
  cbn [mbind option_bind]. by rewrite withTenantId_other.
Qed.

Section Requests.
Context `{FilterSemantics}.

(** What a create request does with a payload the client takes. *)
Lemma request_create_wellFormed (m t : string) (a : gmap string Value)
    (w : World) :
  tableOf m = Some t →
  wellFormed t (getProp a "data") →
  let r := rowOfData t (spread (getProp a "data")) in
  request m create a w = liftDb (insertRow t r (db w)) (QRecord (Some r)) w.
Proof.
  intros Ht Hw. unfold request. run_engine. rewrite Ht.
  by rewrite newRow_wellFormed.
Qed.

(** What a successful create did. *)
Lemma request_create (m t : string) (a : gmap string Value) (w w' : World)
    (q : QueryResult) :
  tableOf m = Some t →
  request m create a w = (Returned q, w') →
  let r := rowOfData t (spread (getProp a "data")) in
  wellFormed t (getProp a "data")
  ∧ q = QRecord (Some r)
  ∧ currentTenantId w' = currentTenantId w
  ∧ db w' = <[t := rowsOf (db w) t ++ [r]]> (db w).
Proof.
  intros Ht. unfold request. run_engine. rewrite Ht.
  destruct (newRow t _) as [r|e] eqn:Hrow; [|discriminate].
  apply newRow_Returned in Hrow as [Hw ->].
  unfold liftDb. destruct (insertRow _ _ _) as [d'|] eqn:Hi; [|discriminate].
  intros [= <- <-]. apply insertRow_Some in Hi as (-> & _ & _). done.
Qed.

Lemma request_create_violation (m t : string) (a : gmap string Value)
    (w : World) :
  tableOf m = Some t →
  wellFormed t (getProp a "data") →
  violatesUnique t (rowOfData t (spread (getProp a "data")))
                 (rowsOf (db w) t) = true →
  request m create a w = (Thrown ConstraintViolation, w).
Proof.
  intros Ht Hw Hv. rewrite (request_create_wellFormed m t) by done.
  unfold liftDb, insertRow. by rewrite Hv.
Qed.
End Requests.

(** The unique index behind each key of [businessKeys]. *)
Lemma businessKeys_indexed (m : string) (key : list string) :
  (m, key) ∈ businessKeys →
  ∃ t cols, tableOf m = Some t ∧ (t, cols) ∈ uniqueIndexes
            ∧ Forall (λ c, c ∈ columnsOf t ∧ fieldOf c ∈ key) cols.
Proof.
  intros Hk. unfold businessKeys in Hk.
  cases_of Hk; injection Hk as -> ->;
    [ exists "suppliers", ["code"]
    | exists "products", ["sku"]
    | exists "users", ["email"]
    | exists "shipment_routes",
        ["tenant_id"; "origin_location_id"; "destination_location_id";
         "transport_mode"]
    | exists "inventory", ["tenant_id"; "product_id"; "location_id"] ];
    (split; [reflexivity|]); (split; [in_list|]);
    repeat (apply List.Forall_cons; [split; in_list|]);
    apply List.Forall_nil.
Qed.

(** A create that repeats the key of a row created before is refused. *)
Lemma repeated_key_refused `{FilterSemantics} (m t : string)
    (key : list string) (a1 a2 : gmap string Value) (w w1 : World)
    (q : QueryResult) (tenant2 : option string) :
  (m, key) ∈ businessKeys →
  tableOf m = Some t →
  sameKey t key (spread (getProp a1 "data")) (spread (getProp a2 "data")) →
  wellFormed t (getProp a2 "data") →
  request m create a1 w = (Returned q, w1) →
  request m create a2 (mkWorld tenant2 (db w1))
  = (Thrown ConstraintViolation, mkWorld tenant2 (db w1)).
Proof.
  intros Hk Ht Hsame Hw2 Hfirst.
  destruct (businessKeys_indexed m key Hk) as (t' & cols & Ht' & Hix & Hcols).
  assert (t' = t) as -> by congruence.
  destruct (request_create _ _ _ _ _ _ Ht Hfirst) as (_ & _ & _ & Hdb).
  apply (request_create_violation m t); [exact Ht|exact Hw2|]. simpl.
  rewrite Hdb, rowsOf_insert.
  eapply violatesUnique_intro; [exact Hix| |].
  - apply elem_of_app. right. apply list_elem_of_here.
  - by apply collide_of_sameKey with (key := key).
Qed.

(** Through the service layer: the keys of Supplier, Product and User do
    not contain the tenant, so the second create is refused under
    another tenant as well, although the middleware stamps the two rows
    with different tenants. *)
Lemma global_key_across_tenants `{FilterSemantics} (m t : string)
    (key : list string) (data1 data2 : Value) (d : Database) (w1 : World)
    (q : QueryResult) (T1 T2 : string) :
  (m, key) ∈ [ ("Supplier", ["code"]); ("Product", ["sku"]);
               ("User", ["email"]) ] →
  tableOf m = Some t →
  sameKey t key (spread data1) (spread data2) →
  wellFormed t (withTenantId (Some T2) data2) →
  T1 ≠ "" → T2 ≠ "" →
  crudCreate m data1 (mkWorld (Some T1) d) = (Returned q, w1) →
  crudCreate m data2 (mkWorld (Some T2) (db w1))
  = (Thrown ConstraintViolation, mkWorld (Some T2) (db w1)).
Proof.
  intros Hk Ht Hsame Hw2 HT1 HT2. unfold crudCreate, prisma, prismaCall.
  assert (isTenantedModel (Some m) = true ∧ (m, key) ∈ businessKeys
          ∧ "tenantId" ∉ key) as (Hrec & Hbk & Hnot).
  { cases_of Hk; injection Hk as -> ->;
      (split; [reflexivity|]); (split; [in_list|]);
      intros Hin; cases_of Hin; discriminate Hin. }
  assert (∀ T, T ≠ "" → truthy (Some T) = true) as Htruthy.
  { intros T HT. simpl. apply negb_true_iff. by apply String.eqb_neq. }
  destruct (recognised_create_stamped
              (mkParams (Some m) create (Some {[ "data" := data1 ]}))
              {[ "data" := data1 ]} engine
              (mkWorld (Some T1) d)) as [-> _]; [by apply Htruthy|done..|].
  destruct (recognised_create_stamped
              (mkParams (Some m) create (Some {[ "data" := data2 ]}))
              {[ "data" := data2 ]} engine
              (mkWorld (Some T2) (db w1))) as [-> _];
    [by apply Htruthy|done..|].
  assert (∀ T data, getProp (dataStamped T {[ "data" := data ]}) "data"
                    = withTenantId T data) as Hstamped.
  { intros T data. unfold dataStamped, getProp.
    by rewrite lookup_insert_eq, lookup_singleton_eq. }
  apply (repeated_key_refused m t key); [exact Hbk|exact Ht| |].
  - cbn [currentTenantId]. rewrite !Hstamped.
    unfold sameKey in *. rewrite Forall_forall in *.
    intros f Hf. destruct (Hsame f Hf) as (s & Hs & H1 & H2).
    exists s. split; [done|].
    assert (f ≠ "tenantId") as Hne by (intros ->; done).
    by rewrite !valueAt_stamped.
  - cbn [currentTenantId]. by rewrite Hstamped.
Qed.

(** C6.  Once a create of a Supplier, Product, User, ShipmentRoute or
    Inventory row has succeeded, a second create whose payload gives the
    same code, sku, email, (tenant, origin, destination, mode) or
    (tenant, product, location) fails with a constraint violation and
    leaves the database as it was, whichever tenant is active for it.
    The values of the key are read from the payload as the client does,
    written under the field or connected by id under the relation field.
    The keys of Supplier, Product and User do not contain the tenant, so
    two payloads of different tenants collide on them as well. *)
Theorem unique_keys_enforced `{FilterSemantics} (m t : string)
    (key : list string) (data1 data2 : Value) (w w1 : World)
    (q : QueryResult) (tenant2 : option string) :
  (m, key) ∈ businessKeys →
  tableOf m = Some t →
  sameKey t key (spread data1) (spread data2) →
  wellFormed t data2 →
  request m create {[ "data" := data1 ]} w = (Returned q, w1) →
  request m create {[ "data" := data2 ]} (mkWorld tenant2 (db w1))
  = (Thrown ConstraintViolation, mkWorld tenant2 (db w1)).
Proof.
  intros Hk Ht Hsame Hw2.
  apply (repeated_key_refused m t key); [exact Hk|exact Ht|..];
    unfold getProp; by rewrite ?lookup_singleton_eq.
Qed.

Lemma unique_keys_enforced_witness :
  let first := routeConnect "r1" "tenant-a-001" "la1" "la2" "TRUCK" 5 in
  let second := routeConnect "r2" "tenant-a-001" "la1" "la2" "TRUCK" 9 in
  let w1 :=
    snd (@request noOtherConditions "ShipmentRoute" create
           {[ "data" := first ]} (mkWorld (Some "tenant-a-001") locationsDb)) in
  @request noOtherConditions "ShipmentRoute" create {[ "data" := second ]}
    (mkWorld (Some "tenant-a-001") (db w1))
  = (Thrown ConstraintViolation, mkWorld (Some "tenant-a-001") (db w1)).
Proof.
  intros first second w1.
  apply (@unique_keys_enforced noOtherConditions "ShipmentRoute"
           "shipment_routes"
           ["tenantId"; "originLocationId"; "destinationLocationId";
            "transportMode"]
           first second (mkWorld (Some "tenant-a-001") locationsDb) w1
           (QRecord (Some (routeRow "r1" "tenant-a-001" "la1" "la2" "TRUCK" 5)))).
  - by apply (bool_decide_unpack _).
  - reflexivity.
  - repeat (apply List.Forall_cons;
              [eexists; split; [|split; reflexivity]; discriminate|]).
    apply List.Forall_nil.
  - split; reflexivity.
  - vm_compute. reflexivity.
Defined.

(* ===================================================================== *)
(** * Route endpoints *)
(* ===================================================================== *)

(** C9, as the code has it.  A ShipmentRoute that the create operation
    accepts is appended to the table with the origin and the destination
    its payload gives, written under [originLocationId] and
    [destinationLocationId] or connected by id under [originLocation]
    and [destinationLocation]: the service, the middleware and the schema
    compare neither with the other, so the stored route has different
    endpoints exactly when the payload has. *)
Theorem route_endpoints_as_given `{FilterSemantics} (data : Value)
    (w w' : World) (q : QueryResult) :
  ShipmentRouteService.create data w = (Returned q, w') →
  ∃ r origin destination,
    q = QRecord (Some r)
    ∧ rowsOf (db w') "shipment_routes"
      = rowsOf (db w) "shipment_routes" ++ [r]
    ∧ valueAt "shipment_routes" (spread data) "originLocationId"
      = Some origin
    ∧ valueAt "shipment_routes" (spread data) "destinationLocationId"
      = Some destination
    ∧ r !! "origin_location_id" = Some origin
    ∧ r !! "destination_location_id" = Some destination.
Proof.
  unfold ShipmentRouteService.create, crudCreate, prisma, prismaCall.
  destruct (truthy (currentTenantId w)) eqn:Ht.
  - destruct (camel_case_model_skipped "ShipmentRoute" create
                (Some {[ "data" := data ]}) engine w) as [_ ->];
      [in_list|exact Ht|].
    intros Hc.
    destruct (request_create "ShipmentRoute" "shipment_routes" _ _ _ _
                eq_refl Hc) as ([_ Hcomplete] & -> & _ & ->).
    revert Hcomplete. unfold getProp. rewrite lookup_singleton_eq. simpl.
    intros Hcomplete.
    assert (∀ f, f ∈ requiredOf "shipment_routes" →
                 is_Some (valueAt "shipment_routes" (spread data) f))
      as Hgiven.
    { intros f Hf. unfold complete in Hcomplete.
      apply andb_true_iff in Hcomplete as [Hcomplete _].
      rewrite forallb_forall in Hcomplete.
      by apply list_elem_of_In, Hcomplete, bool_decide_eq_true in Hf. }
    destruct (Hgiven "originLocationId") as [origin Ho]; [in_list|].
    destruct (Hgiven "destinationLocationId") as [destination Hd];
      [in_list|].
    eexists _, origin, destination.
    split; [reflexivity|]. split; [by rewrite rowsOf_insert|].
    split; [exact Ho|]. split; [exact Hd|].
    split; by rewrite rowOfData_lookup by in_list.
  - rewrite middleware_throws by done. discriminate.
Qed.

Lemma route_endpoints_as_given_witness :
  let data := routeConnect "rc" "tenant-a-001" "la1" "la2" "AIR" 3 in
  let w := mkWorld (Some "tenant-a-001") locationsDb in
  ∃ r,
    rowsOf (db (snd (@ShipmentRouteService.create noOtherConditions data w)))
           "shipment_routes"
    = rowsOf (db w) "shipment_routes" ++ [r]
    ∧ r !! "origin_location_id" = Some (SStr "la1")
    ∧ r !! "destination_location_id" = Some (SStr "la2").
Proof.
  intros data w.
  destruct (@route_endpoints_as_given noOtherConditions data w
              (snd (@ShipmentRouteService.create noOtherConditions data w))
              (QRecord (Some (routeRow "rc" "tenant-a-001" "la1" "la2" "AIR" 3))))
    as (r & origin & destination & _ & Hrows & Ho & Hd & Hro & Hrd).
  - vm_compute. reflexivity.
  - exists r. split; [exact Hrows|].
    vm_compute in Ho, Hd. injection Ho as <-. injection Hd as <-.
    split; [exact Hro|exact Hrd].
Defined.

(** C9 as stated fails: a route from a location to itself is accepted
    and stored. *)
Lemma route_endpoints_counterexample :
  let loop := routeData "rx" (Some "tenant-a-001") "la1" "la1" "TRUCK" 1 in
  let stored := routeRow "rx" "tenant-a-001" "la1" "la1" "TRUCK" 1 in
  let w := mkWorld (Some "tenant-a-001") locationsDb in
  fst (@ShipmentRouteService.create noOtherConditions loop w)
  = Returned (QRecord (Some stored))
  ∧ stored ∈ rowsOf
      (db (snd (@ShipmentRouteService.create noOtherConditions loop w)))
      "shipment_routes"
  ∧ stored !! "origin_location_id" = stored !! "destination_location_id".
Proof.
  vm_compute. split; [reflexivity|]. split; [|reflexivity].
  apply list_elem_of_here.
Qed.

(* ===================================================================== *)
(** * Deletes: cascade and restrict *)
(* ===================================================================== *)

Lemma deleteRows_unfold (fuel : nat) (t : string) (victims : list Row)
    (d : Database) :
  deleteRows (S fuel) t victims d
  = match fold_left (follow (deleteRows fuel) victims) (referencing t)
                    (Deleted d) with
    | Deleted d2 =>
        Deleted (<[t := filter (λ r, r ∉ victims) (rowsOf d2 t)]> d2)
    | r => r
    end.
Proof. reflexivity. Qed.

(** A table nothing points at: the victims go, nothing else happens. *)
Lemma deleteRows_leaf (fuel : nat) (t : string) (victims : list Row)
    (d : Database) :
  referencing t = [] →
  deleteRows (S fuel) t victims d
  = Deleted (<[t := filter (λ r, r ∉ victims) (rowsOf d t)]> d).
Proof. intros Hl. rewrite deleteRows_unfold, Hl. reflexivity. Qed.

Lemma refersTo_references (fk : ForeignKey) (p c : Row) :
  fkParentColumn fk = "id" →
  refersTo fk [p] c = false ↔ ¬ references c (fkColumn fk) p.
Proof.
  intros Hid. unfold refersTo, references. rewrite Hid. simpl.
  rewrite orb_false_r, andb_false_iff, !bool_decide_eq_false. split.
  - intros [Hn|Hn] [Hnull Heq]; [done|]. by apply Hn.
  - intros Hn. destruct (decide (cell c (fkColumn fk) = SNull)) as [Hz|Hz].
    + left. by intros Hc.
    + right. intros Heq. apply Hn. by split.
Qed.

(** Following a CASCADE key into a table nothing points at removes the
    referencing rows of that table and touches no other table. *)
Lemma follow_cascade_leaf (fuel : nat) (victims : list Row) (d : Database)
    (fk : ForeignKey) :
  onDelete fk = Cascade → referencing (fkTable fk) = [] →
  ∃ d1,
    follow (deleteRows (S fuel)) victims (Deleted d) fk = Deleted d1
    ∧ (∀ c, c ∈ rowsOf d1 (fkTable fk)
            ↔ c ∈ rowsOf d (fkTable fk) ∧ refersTo fk victims c = false)
    ∧ (∀ t', t' ≠ fkTable fk → rowsOf d1 t' = rowsOf d t').
Proof.
  intros Hc Hleaf. unfold follow.
  destruct (filter _ (rowsOf d (fkTable fk))) as [|c0 cs] eqn:Hch.
  - exists d. split; [reflexivity|]. split; [|done].
    intros c. split; [|tauto]. intros Hin. split; [done|].
    apply not_true_is_false. intros Hr.
    assert (c ∈ filter (λ c, refersTo fk victims c = true)
                       (rowsOf d (fkTable fk))) as Hf
      by by apply list_elem_of_filter.
    rewrite Hch in Hf. by apply elem_of_nil in Hf.
  - rewrite Hc, deleteRows_leaf by done.
    eexists. split; [reflexivity|]. split.
    + intros c. rewrite rowsOf_insert, list_elem_of_filter, <- Hch.
      rewrite list_elem_of_filter. split.
      * intros [Hn Hin]. split; [done|].
        apply not_true_is_false. intros Hr. by apply Hn.
      * intros [Hin Hr]. split; [|done]. intros [Hr' _]. congruence.
    + intros t' Hne. by rewrite rowsOf_insert_ne.
Qed.

(** The same along a list of such keys into distinct tables. *)
Lemma fold_cascade_leaves (fuel : nat) (victims : list Row)
    (fks : list ForeignKey) (d : Database) :
  Forall (λ fk, onDelete fk = Cascade ∧ referencing (fkTable fk) = []) fks →
  NoDup (fkTable <$> fks) →
  ∃ d',
    fold_left (follow (deleteRows (S fuel)) victims) fks (Deleted d)
    = Deleted d'
    ∧ (∀ fk, fk ∈ fks →
         ∀ c, c ∈ rowsOf d' (fkTable fk)
              ↔ c ∈ rowsOf d (fkTable fk) ∧ refersTo fk victims c = false)
    ∧ (∀ t', t' ∉ (fkTable <$> fks) → rowsOf d' t' = rowsOf d t').
Proof.
  revert d. induction fks as [|fk fks IH]; intros d Hall Hnd.
  - exists d. split; [reflexivity|]. split; [|done].
    intros fk Hin. by apply elem_of_nil in Hin.
  - apply Forall_cons in Hall as [[Hc Hleaf] Hall].
    rewrite fmap_cons in Hnd. apply NoDup_cons in Hnd as [Hfresh Hnd].
    destruct (follow_cascade_leaf fuel victims d fk Hc Hleaf)
      as (d1 & Hstep & Hrows1 & Hframe1).
    destruct (IH d1 Hall Hnd) as (d' & Hfold & Hrows & Hframe).
    exists d'. split; [cbn [fold_left]; by rewrite Hstep|]. split.
    + intros fk' [->|Hin]%elem_of_cons c.
      * rewrite Hframe by done. apply Hrows1.
      * rewrite (Hrows fk' Hin c), Hframe1; [done|].
        intros Heq. apply Hfresh. rewrite <- Heq.
        apply list_elem_of_fmap. by exists fk'.
    + intros t' Hnin. rewrite fmap_cons in Hnin.
      apply not_elem_of_cons in Hnin as [Hne Hnin].
      by rewrite Hframe, Hframe1.
Qed.


(** A delete from a table that only CASCADE keys into leaf tables point
    at always goes through: it removes the victims and, from each child
    table, the rows referring to a victim. *)
Lemma deleteFrom_cascading (t : string) (victims : list Row) (d : Database) :
  Forall (λ fk, onDelete fk = Cascade ∧ referencing (fkTable fk) = [])
         (referencing t) →
  NoDup (fkTable <$> referencing t) →
  t ∉ (fkTable <$> referencing t) →
  ∃ d',
    deleteFrom t victims d = Deleted d'
    ∧ (∀ fk, fk ∈ referencing t →
         ∀ c, c ∈ rowsOf d' (fkTable fk)
              ↔ c ∈ rowsOf d (fkTable fk) ∧ refersTo fk victims c = false)
    ∧ (∀ r, r ∈ rowsOf d' t ↔ r ∈ rowsOf d t ∧ r ∉ victims).
Proof.
  intros Hall Hnd Hself. unfold deleteFrom.
  change cascadeFuel with (S (S 10)). rewrite deleteRows_unfold.
  destruct (fold_cascade_leaves 10 victims (referencing t) d Hall Hnd)
    as (d2 & -> & Hrows & Hframe).
  eexists. split; [reflexivity|]. split.
  - intros fk Hin c. rewrite rowsOf_insert_ne.
    + by apply Hrows.
    + intros ->. apply Hself. apply list_elem_of_fmap. by exists fk.
  - intros r. rewrite rowsOf_insert, list_elem_of_filter, Hframe by done.
    tauto.
Qed.

Section Deletes.
Context `{FilterSemantics}.

(** What a delete request does with the row its filter selects. *)
Lemma request_delete (m t : string) (a : gmap string Value) (w : World)
    (r : Row) (rest : list Row) :
  tableOf m = Some t →
  selectRows t (getProp a "where") (db w) = r :: rest →
  request m delete_ a w
  = match deleteFrom t [r] (db w) with
    | Deleted d => (Returned (QRecord (Some r)), mkWorld (currentTenantId w) d)
    | Restricted => (Thrown ConstraintViolation, w)
    | Exhausted => (Thrown notInterpreted, w)
    end.
Proof.
  intros Ht Hsel. unfold request. run_engine. rewrite Ht.
  by rewrite Hsel.
Qed.

Lemma delete_product (a : gmap string Value) (w : World) (p : Row)
    (rest : list Row) :
  selectRows "products" (getProp a "where") (db w) = p :: rest →
  ∃ w',
    request "Product" delete_ a w = (Returned (QRecord (Some p)), w')
    ∧ (p ∉ rowsOf (db w') "products")
    ∧ (∀ i, i ∈ rowsOf (db w') "inventory"
            ↔ i ∈ rowsOf (db w) "inventory" ∧ ¬ references i "product_id" p).
Proof.
  intros Hsel. rewrite (request_delete "Product" "products" a w p rest) by done.
  destruct (deleteFrom_cascading "products" [p] (db w))
    as (d' & -> & Hchildren & Hself).
  - repeat (apply List.Forall_cons; [by split|]). apply List.Forall_nil.
  - by apply (bool_decide_unpack _).
  - by apply (bool_decide_unpack _).
  - eexists. split; [reflexivity|]. simpl. split.
    + intros [_ Hn]%Hself. apply Hn, list_elem_of_here.
    + intros i.
      rewrite (Hchildren
                 (mkFK "inventory" "product_id" "products" "id" Cascade Cascade))
        by in_list.
      by rewrite refersTo_references.
Qed.

Lemma delete_risk_event (a : gmap string Value) (w : World) (e : Row)
    (rest : list Row) :
  selectRows "risk_events" (getProp a "where") (db w) = e :: rest →
  ∃ w',
    request "RiskEvent" delete_ a w = (Returned (QRecord (Some e)), w')
    ∧ (e ∉ rowsOf (db w') "risk_events")
    ∧ (∀ jt, jt ∈ junctionTables →
         ∀ j, j ∈ rowsOf (db w') jt
              ↔ j ∈ rowsOf (db w) jt ∧ ¬ references j "risk_event_id" e).
Proof.
  intros Hsel.
  rewrite (request_delete "RiskEvent" "risk_events" a w e rest) by done.
  destruct (deleteFrom_cascading "risk_events" [e] (db w))
    as (d' & -> & Hchildren & Hself).
  - repeat (apply List.Forall_cons; [by split|]). apply List.Forall_nil.
  - by apply (bool_decide_unpack _).
  - by apply (bool_decide_unpack _).
  - eexists. split; [reflexivity|]. simpl. split.
    + intros [_ Hn]%Hself. apply Hn, list_elem_of_here.
    + intros jt Hjt j. unfold junctionTables in Hjt.
      cases_of Hjt; rewrite Hjt;
        match goal with
        | |- context [rowsOf d' ?jt] =>
            rewrite (Hchildren
                       (mkFK jt "risk_event_id" "risk_events" "id"
                          Cascade Cascade)) by in_list
        end;
        by rewrite refersTo_references.
Qed.

Lemma delete_supplier_restricted (a : gmap string Value) (w : World)
    (s : Row) (rest : list Row) (p : Row) :
  selectRows "suppliers" (getProp a "where") (db w) = s :: rest →
  p ∈ rowsOf (db w) "products" → references p "supplier_id" s →
  request "Supplier" delete_ a w = (Thrown ConstraintViolation, w).
Proof.
  intros Hsel Hp Href.
  rewrite (request_delete "Supplier" "suppliers" a w s rest) by done.
  unfold deleteFrom. change cascadeFuel with (S (S 10)).
  rewrite deleteRows_unfold.
  change (referencing "suppliers")
    with [ mkFK "products" "supplier_id" "suppliers" "id" Restrict Cascade;
           mkFK "risk_event_suppliers" "supplier_id" "suppliers" "id"
             Cascade Cascade ].
  cbn [fold_left]. unfold follow at 2. cbn [fkTable onDelete].
  destruct (filter _ (rowsOf (db w) "products")) as [|c cs] eqn:Hch.
  - exfalso.
    assert (p ∈ filter
              (λ c, refersTo
                      (mkFK "products" "supplier_id" "suppliers" "id"
                         Restrict Cascade) [s] c = true)
              (rowsOf (db w) "products")) as Hin.
    { apply list_elem_of_filter. split; [|done].
      apply not_false_iff_true. intros Hf.
      apply refersTo_references in Hf; [by apply Hf|reflexivity]. }
    rewrite Hch in Hin. by apply elem_of_nil in Hin.
  - reflexivity.
Qed.
End Deletes.

(** C7.  Deleting a Product goes through and leaves exactly the
    Inventory rows that do not refer to it; deleting a RiskEvent goes
    through and leaves, in each of the four junction tables, exactly the
    rows that do not refer to it; deleting a Supplier that a Product
    refers to fails with a constraint violation and changes nothing. *)
Theorem cascade_and_restrict `{FilterSemantics} (a : gmap string Value)
    (w : World) (victim : Row) (rest : list Row) :
  (selectRows "products" (getProp a "where") (db w) = victim :: rest →
   ∃ w',
     request "Product" delete_ a w = (Returned (QRecord (Some victim)), w')
     ∧ (victim ∉ rowsOf (db w') "products")
     ∧ (∀ i, i ∈ rowsOf (db w') "inventory"
             ↔ i ∈ rowsOf (db w) "inventory"
               ∧ ¬ references i "product_id" victim))
  ∧ (selectRows "risk_events" (getProp a "where") (db w) = victim :: rest →
     ∃ w',
       request "RiskEvent" delete_ a w = (Returned (QRecord (Some victim)), w')
       ∧ (victim ∉ rowsOf (db w') "risk_events")
       ∧ (∀ jt, jt ∈ junctionTables →
            ∀ j, j ∈ rowsOf (db w') jt
                 ↔ j ∈ rowsOf (db w) jt
                   ∧ ¬ references j "risk_event_id" victim))
  ∧ (selectRows "suppliers" (getProp a "where") (db w) = victim :: rest →
     ∀ p, p ∈ rowsOf (db w) "products" →
          references p "supplier_id" victim →
          request "Supplier" delete_ a w = (Thrown ConstraintViolation, w)).
Proof.
  split; [apply delete_product|].
  split; [apply delete_risk_event|].
  intros Hsel p. by apply (delete_supplier_restricted a w victim rest).
Qed.

Lemma cascade_and_restrict_witness :
  let w := mkWorld (Some "tenant-a-001") catalogDb in
  (∃ w',
     @request noOtherConditions "Product" delete_
       {[ "where" := byId "p1" ]} w
     = (Returned (QRecord (Some productRow)), w')
     ∧ ∀ i, i ∈ rowsOf (db w') "inventory" →
            ¬ references i "product_id" productRow)
  ∧ (∃ w',
       @request noOtherConditions "RiskEvent" delete_
         {[ "where" := byId "e1" ]} w
       = (Returned (QRecord (Some riskEventRow)), w')
       ∧ ∀ jt, jt ∈ junctionTables →
           ∀ j, j ∈ rowsOf (db w') jt →
                ¬ references j "risk_event_id" riskEventRow)
  ∧ @request noOtherConditions "Supplier" delete_
      {[ "where" := byId "s1" ]} w
    = (Thrown ConstraintViolation, w).
Proof.
  intros w. split; [|split].
  - destruct (@cascade_and_restrict noOtherConditions
                {[ "where" := byId "p1" ]} w productRow []) as [Hp _].
    destruct Hp as (w' & Hr & _ & Hi); [vm_compute; reflexivity|].
    exists w'. split; [exact Hr|]. intros i Hin. by apply Hi in Hin as [_ ?].
  - destruct (@cascade_and_restrict noOtherConditions
                {[ "where" := byId "e1" ]} w riskEventRow [])
      as (_ & He & _).
    destruct He as (w' & Hr & _ & Hj); [vm_compute; reflexivity|].
    exists w'. split; [exact Hr|].
    intros jt Hjt j Hin. by apply (Hj jt Hjt) in Hin as [_ ?].
  - destruct (@cascade_and_restrict noOtherConditions
                {[ "where" := byId "s1" ]} w supplierRow [])
      as (_ & _ & Hs).
    apply (Hs eq_refl productRow).
    + apply list_elem_of_here.
    + split; [discriminate|reflexivity].
Defined.

(* ===================================================================== *)
(** * More on the middleware *)
(* ===================================================================== *)

(** X1.  The middleware takes a model for tenanted exactly when its
    name, in lower case, is supplier, product, location, inventory or
    user; the entries of [tenantedModels] spelt with a capital letter
    are equal to no lower-cased name. *)
Theorem tenanted_model_recognition (m : option string) :
  (isTenantedModel m = true
   ↔ ∃ n, m = Some n ∧ toLowerCase n ∈ recognisedNames)
  ∧ ∀ n e, e ∈ camelCaseNames → toLowerCase n ≠ e.
Proof.
  split.
  - destruct m as [n|].
    + rewrite isTenantedModel_spec. split; [by exists n|].
      by intros (n' & [= <-] & Hin).
    + split; [discriminate|]. by intros (n & ? & _).
  - intros n e He. apply capital_never_matches.
    unfold camelCaseNames in He. by apply list_elem_of_filter in He as [He _].
Qed.

Lemma whereScoped_idem t a : whereScoped t (whereScoped t a) = whereScoped t a.
Proof.
  unfold whereScoped at 1. rewrite whereScoped_where.
  unfold withTenantId at 1. simpl. rewrite insert_insert_eq.
  unfold whereScoped. by rewrite insert_insert_eq.
Qed.

Lemma withTenantId_idem t v :
  withTenantId t (withTenantId t v) = withTenantId t v.
Proof. unfold withTenantId. simpl. by rewrite insert_insert_eq. Qed.

Lemma dataStamped_data t a :
  getProp (dataStamped t a) "data" = withTenantId t (getProp a "data").
Proof. unfold dataStamped, getProp. by rewrite lookup_insert_eq. Qed.

Lemma dataStamped_idem t a : dataStamped t (dataStamped t a) = dataStamped t a.
Proof.
  unfold dataStamped at 1. rewrite dataStamped_data, withTenantId_idem.
  unfold dataStamped. by rewrite insert_insert_eq.
Qed.

Lemma manyStamped_idem t a : manyStamped t (manyStamped t a) = manyStamped t a.
Proof.
  unfold manyStamped.
  destruct (getProp a "data") as [|s|records|o] eqn:Hd;
    try (rewrite dataStamped_data, Hd; apply dataStamped_idem).
  unfold getProp at 1. rewrite lookup_insert_eq. simpl.
  rewrite insert_insert_eq. do 2 f_equal.
  rewrite <- list_fmap_compose. apply list_fmap_ext.
  intros i v _. apply withTenantId_idem.
Qed.

Lemma manyStamped_other t (a : gmap string Value) k :
  k ≠ "data" → manyStamped t a !! k = a !! k.
Proof.
  intros Hk. unfold manyStamped, dataStamped.
  destruct (getProp a "data"); by rewrite lookup_insert_ne.
Qed.

(** What the switch does depends on the action only: nothing, or one
    assignment to [where] or to [data] that leaves the other arguments
    and the caller's other conditions alone and that changes nothing
    when made twice. *)
Lemma scopeParams_cases t (act : PrismaAction) :
  (∀ params, action params = act → scopeParams t params = Returned params)
  ∨ ∃ f : gmap string Value → gmap string Value,
      (∀ params, action params = act → scopeParams t params = onArgs f params)
      ∧ (∀ a k, k ≠ "where" → k ≠ "data" → f a !! k = a !! k)
      ∧ (∀ a k, k ≠ "tenantId" →
           spread (getProp (f a) "where") !! k
           = spread (getProp a "where") !! k)
      ∧ (∀ a, f (f a) = f a).
Proof.
  assert (∀ f : gmap string Value → gmap string Value,
            (∀ a k, k ≠ "data" → f a !! k = a !! k) →
            ∀ a k, spread (getProp (f a) "where") !! k
                   = spread (getProp a "where") !! k) as Hdata.
  { intros f Hf a k. unfold getProp. by rewrite Hf. }
  assert (∀ a k, k ≠ "data" → dataStamped t a !! k = a !! k) as Hstamp.
  { intros a k Hk. unfold dataStamped. by rewrite lookup_insert_ne. }
  destruct act;
    try (left; intros params Ha; unfold scopeParams; by rewrite Ha);
    right;
    [ exists (whereScoped t) | exists (whereScoped t) | exists (whereScoped t)
    | exists (whereScoped t) | exists (whereScoped t) | exists (dataStamped t)
    | exists (manyStamped t) | exists (whereScoped t) | exists (whereScoped t)
    | exists (whereScoped t) | exists (whereScoped t) | exists (whereScoped t)
    | exists (whereScoped t) | exists (whereScoped t) | exists (whereScoped t) ];
    (split; [intros params Ha; unfold scopeParams; by rewrite Ha|]);
    first
      [ split; [intros a k Hw _; by apply whereScoped_other|];
        split; [intros a k Hk; rewrite whereScoped_where;
                by apply withTenantId_other|];
        apply whereScoped_idem
      | split; [intros a k _ Hd; by apply Hstamp|];
        split; [intros a k _; by apply Hdata|];
        apply dataStamped_idem
      | split; [intros a k _ Hd; by apply manyStamped_other|];
        split; [intros a k _; apply Hdata; intros; by apply manyStamped_other|];
        apply manyStamped_idem ].
Qed.

(** X2.  Every call ends in one of three ways: in the tenant-required
    error; on a recognised model and without an argument object, in the
    TypeError of reading a property of [undefined]; or in [next], called
    with one parameter object that has the model and the action of the
    call, an argument object exactly when the call had one, every
    argument other than [where] and [data] as the caller wrote it
    ([include], [select], [orderBy], the [create] and [update] payloads
    of an upsert), and in [where] every condition of the caller other
    than [tenantId]. *)
Theorem middleware_frame (params : MiddlewareParams) (w : World) :
  (∀ R (next : MiddlewareParams → M R),
     tenantIsolationMiddleware params next w = (Thrown tenantRequired, w))
  ∨ (args params = None
     ∧ isTenantedModel (model params) = true
     ∧ ∀ R (next : MiddlewareParams → M R),
         tenantIsolationMiddleware params next w = (Thrown TypeError, w))
  ∨ ∃ forwarded,
      (∀ R (next : MiddlewareParams → M R),
         tenantIsolationMiddleware params next w = next forwarded w)
      ∧ model forwarded = model params
      ∧ action forwarded = action params
      ∧ (is_Some (args forwarded) ↔ is_Some (args params))
      ∧ (∀ k, k ≠ "where" → k ≠ "data" →
              argsOf forwarded !! k = argsOf params !! k)
      ∧ (∀ k, k ≠ "tenantId" →
              spread (getProp (argsOf forwarded) "where") !! k
              = spread (getProp (argsOf params) "where") !! k).
Proof.
  destruct (negb (truthy (currentTenantId w)) && negb (isRaw (action params)))
    eqn:Hg.
  { left. intros R next.
    apply andb_true_iff in Hg as [Ht%negb_true_iff Hr%negb_true_iff].
    by apply middleware_throws. }
  assert (truthy (currentTenantId w) = true ∨ isRaw (action params) = true)
    as Hg'.
  { apply andb_false_iff in Hg as [Hg%negb_false_iff|Hg%negb_false_iff];
      auto. }
  right. destruct (isTenantedModel (model params)) eqn:Hm.
  - destruct (scopeParams_cases (currentTenantId w) (action params))
      as [Hsame|(f & Hf & Hother & Hcond & _)].
    + right. exists params. split; [|done].
      intros R next. apply middleware_scopes; auto.
    + destruct (args params) as [a|] eqn:Hargs.
      * right.
        exists (mkParams (model params) (action params) (Some (f a))).
        split; [|split; [done|]; split; [done|]; split; [|split]].
        -- intros R next. apply middleware_scopes; [auto..|].
           rewrite Hf by done. unfold onArgs. by rewrite Hargs.
        -- by split.
        -- unfold argsOf. rewrite Hargs. apply Hother.
        -- unfold argsOf. rewrite Hargs. apply Hcond.
      * left. split; [done|]. split; [done|].
        intros R next. apply middleware_fails; [auto..|].
        rewrite Hf by done. unfold onArgs. by rewrite Hargs.
  - right. exists params. split; [|done].
    intros R next. by apply middleware_skips.
Qed.

(** X3.  Registering the middleware twice on one client changes
    nothing: running it as its own continuation gives the outcome of
    running it once. *)
Theorem middleware_idempotent {R} (params : MiddlewareParams)
    (next : MiddlewareParams → M R) (w : World) :
  tenantIsolationMiddleware params
    (λ p, tenantIsolationMiddleware p next) w
  = tenantIsolationMiddleware params next w.
Proof.
  destruct (negb (truthy (currentTenantId w)) && negb (isRaw (action params)))
    eqn:Hg.
  { apply andb_true_iff in Hg as [Ht%negb_true_iff Hr%negb_true_iff].
    by rewrite !middleware_throws by done. }
  assert (truthy (currentTenantId w) = true ∨ isRaw (action params) = true)
    as Hg'.
  { apply andb_false_iff in Hg as [Hg%negb_false_iff|Hg%negb_false_iff];
      auto. }
  destruct (isTenantedModel (model params)) eqn:Hm;
    [|by rewrite !(middleware_skips params) by auto].
  destruct (scopeParams_cases (currentTenantId w) (action params))
    as [Hsame|(f & Hf & _ & _ & Hidem)].
  - by rewrite !(middleware_scopes params params) by auto.
  - destruct (args params) as [a|] eqn:Hargs.
    + assert (scopeParams (currentTenantId w) params
              = Returned (mkParams (model params) (action params)
                            (Some (f a)))) as Hscoped.
      { rewrite Hf by done. unfold onArgs. by rewrite Hargs. }
      rewrite !(middleware_scopes params _ _ _ Hg' Hm Hscoped).
      apply middleware_scopes; [done..|].
      rewrite Hf by done. unfold onArgs. simpl. by rewrite Hidem.
    + assert (scopeParams (currentTenantId w) params = Thrown TypeError)
        as Hfails.
      { rewrite Hf by done. unfold onArgs. by rewrite Hargs. }
      by rewrite !(middleware_fails params _ _ _ Hg' Hm Hfails).
Qed.

(* ===================================================================== *)
(** * Deletes in general *)
(* ===================================================================== *)

(** Three facts of the schema: a CASCADE key leads to a table nothing
    points at, no table points at itself, and a table reached by a
    CASCADE key from a parent is not reached by a RESTRICT key from the
    same parent. *)
Lemma cascade_into_leaves (fk : ForeignKey) :
  fk ∈ foreignKeys → onDelete fk = Cascade → referencing (fkTable fk) = [].
Proof.
  intros Hin. unfold foreignKeys in Hin. cases_of Hin; by rewrite Hin.
Qed.

Lemma no_self_reference (fk : ForeignKey) :
  fk ∈ foreignKeys → fkTable fk ≠ fkParent fk.
Proof.
  intros Hin. unfold foreignKeys in Hin. cases_of Hin; by rewrite Hin.
Qed.

Lemma cascade_apart_from_restrict (fk1 fk2 : ForeignKey) :
  fk1 ∈ foreignKeys → fk2 ∈ foreignKeys → fkParent fk1 = fkParent fk2 →
  onDelete fk1 = Cascade → onDelete fk2 = Restrict →
  fkTable fk1 ≠ fkTable fk2.
Proof.
  intros H1 H2. unfold foreignKeys in H1, H2.
  cases_of H1; rewrite H1; cases_of H2; rewrite H2; done.
Qed.

Lemma parent_column_id (fk : ForeignKey) :
  fk ∈ foreignKeys → fkParentColumn fk = "id".
Proof.
  intros Hin. unfold foreignKeys in Hin. cases_of Hin; by rewrite Hin.
Qed.

Lemma referencing_elem_of (t : string) (fk : ForeignKey) :
  fk ∈ referencing t ↔ fk ∈ foreignKeys ∧ fkParent fk = t.
Proof. unfold referencing. rewrite list_elem_of_filter. tauto. Qed.

(** A delete blocked by one key stays blocked. *)
Lemma fold_restricted (recurse : string → list Row → Database → DeleteResult)
    (victims : list Row) (fks : list ForeignKey) :
  fold_left (follow recurse victims) fks Restricted = Restricted.
Proof. by induction fks. Qed.

Lemma filter_nil_none {A} (P : A → Prop) `{∀ x, Decision (P x)}
    (l : list A) (x : A) :
  filter P l = [] → x ∈ l → ¬ P x.
Proof.
  intros Hf Hin HP.
  assert (x ∈ filter P l) as Hx by by apply list_elem_of_filter.
  rewrite Hf in Hx. by apply elem_of_nil in Hx.
Qed.

(** Following a RESTRICT key that no row uses changes nothing. *)
Lemma follow_restrict_free
    (recurse : string → list Row → Database → DeleteResult)
    (victims : list Row) (d : Database) (fk : ForeignKey) :
  (∀ c, c ∈ rowsOf d (fkTable fk) → refersTo fk victims c = false) →
  follow recurse victims (Deleted d) fk = Deleted d.
Proof.
  intros Hfree. unfold follow.
  destruct (filter _ (rowsOf d (fkTable fk))) as [|c cs] eqn:Hch; [done|].
  assert (c ∈ filter (λ c, refersTo fk victims c = true)
                     (rowsOf d (fkTable fk))) as Hc
    by (rewrite Hch; apply list_elem_of_here).
  apply list_elem_of_filter in Hc as [Hr Hin].
  rewrite (Hfree c Hin) in Hr. discriminate.
Qed.

(** Following the keys of a list none of whose RESTRICT keys is in use:
    the delete goes on, and each table keeps exactly its rows that no
    CASCADE key of the list reaches. *)
Lemma fold_follow_free (fuel : nat) (victims : list Row)
    (fks : list ForeignKey) (d : Database) :
  (∀ fk, fk ∈ fks → onDelete fk = Cascade → referencing (fkTable fk) = []) →
  (∀ fk c, fk ∈ fks → onDelete fk = Restrict →
           c ∈ rowsOf d (fkTable fk) → refersTo fk victims c = false) →
  ∃ d',
    fold_left (follow (deleteRows (S fuel)) victims) fks (Deleted d)
    = Deleted d'
    ∧ ∀ t' c, c ∈ rowsOf d' t'
              ↔ c ∈ rowsOf d t' ∧ spared fks victims t' c.
Proof.
  revert d. induction fks as [|fk fks IH]; intros d Hleaf Hfree.
  - exists d. split; [reflexivity|]. intros t' c. split; [|tauto].
    intros Hin. split; [done|]. intros fk Hfk. by apply elem_of_nil in Hfk.
  - cbn [fold_left].
    destruct (onDelete fk) eqn:Hon.
    + rewrite follow_restrict_free
        by (intros c; apply Hfree; [apply list_elem_of_here|done]).
      destruct (IH d) as (d' & -> & Hrows).
      { intros fk' Hin. apply Hleaf. by apply list_elem_of_further. }
      { intros fk' c Hin. apply Hfree. by apply list_elem_of_further. }
      exists d'. split; [reflexivity|]. intros t' c. rewrite Hrows.
      split; intros [Hin Hsp]; (split; [done|]).
      * intros fk' [->|Hfk']%elem_of_cons; [congruence|by apply Hsp].
      * intros fk' Hfk'. apply Hsp. by apply list_elem_of_further.
    + destruct (follow_cascade_leaf fuel victims d fk Hon)
        as (d1 & -> & Hrows1 & Hframe1).
      { apply Hleaf; [apply list_elem_of_here|done]. }
      assert (∀ t' c, c ∈ rowsOf d1 t' → c ∈ rowsOf d t') as Hsub.
      { intros t' c. destruct (decide (t' = fkTable fk)) as [->|Hne].
        - by intros [? _]%Hrows1.
        - by rewrite Hframe1. }
      destruct (IH d1) as (d' & -> & Hrows).
      { intros fk' Hin. apply Hleaf. by apply list_elem_of_further. }
      { intros fk' c Hin Hr Hc. apply Hfree; [|done|by apply Hsub].
        by apply list_elem_of_further. }
      exists d'. split; [reflexivity|]. intros t' c. rewrite Hrows.
      split.
      * intros [Hin Hsp]. split; [by apply Hsub|].
        intros fk' [->|Hfk']%elem_of_cons; [|by apply Hsp].
        intros <- _. by apply Hrows1 in Hin as [_ ?].
      * intros [Hin Hsp]. split.
        -- destruct (decide (t' = fkTable fk)) as [->|Hne].
           ++ apply Hrows1. split; [done|].
              by apply Hsp; [apply list_elem_of_here|..].
           ++ by rewrite Hframe1.
        -- intros fk' Hfk'. apply Hsp. by apply list_elem_of_further.
Qed.

(** Following keys one of whose RESTRICT keys is in use refuses the
    delete. *)
Lemma fold_follow_blocked (fuel : nat) (victims : list Row)
    (fks : list ForeignKey) (d : Database) (fk0 : ForeignKey) (c0 : Row) :
  (∀ fk, fk ∈ fks → onDelete fk = Cascade → referencing (fkTable fk) = []) →
  (∀ fk, fk ∈ fks → onDelete fk = Cascade → fkTable fk ≠ fkTable fk0) →
  fk0 ∈ fks → onDelete fk0 = Restrict →
  c0 ∈ rowsOf d (fkTable fk0) → refersTo fk0 victims c0 = true →
  fold_left (follow (deleteRows (S fuel)) victims) fks (Deleted d)
  = Restricted.
Proof.
  revert d. induction fks as [|fk fks IH]; intros d Hleaf Hapart Hin0 Hr0 Hc0 Href.
  - by apply elem_of_nil in Hin0.
  - cbn [fold_left].
    assert (∀ d1, (∀ c, c ∈ rowsOf d (fkTable fk0) → c ∈ rowsOf d1 (fkTable fk0)) →
                  fk0 ∈ fks →
                  fold_left (follow (deleteRows (S fuel)) victims) fks
                    (Deleted d1) = Restricted) as Hnext.
    { intros d1 Hkeep Hin. apply IH; auto.
      - intros fk' Hfk'. apply Hleaf. by apply list_elem_of_further.
      - intros fk' Hfk'. apply Hapart. by apply list_elem_of_further. }
    destruct (onDelete fk) eqn:Hon.
    + unfold follow at 2.
      destruct (filter _ (rowsOf d (fkTable fk))) as [|c cs] eqn:Hch.
      * apply elem_of_cons in Hin0 as [->|Hin0].
        -- exfalso. eapply (filter_nil_none _ _ c0 Hch); done.
        -- by apply Hnext.
      * rewrite Hon. apply fold_restricted.
    + destruct (follow_cascade_leaf fuel victims d fk Hon)
        as (d1 & -> & Hrows1 & Hframe1).
      { apply Hleaf; [apply list_elem_of_here|done]. }
      apply elem_of_cons in Hin0 as [->|Hin0]; [congruence|].
      apply Hnext; [|done]. intros c Hc. rewrite Hframe1; [done|].
      intros Heq. eapply Hapart; [apply list_elem_of_here|done|done].
Qed.

(** The outcome of a delete from any table. *)
Lemma deleteFrom_blocked (t : string) (victims : list Row) (d : Database) :
  blocked t victims d → deleteFrom t victims d = Restricted.
Proof.
  intros (fk0 & c0 & Hin & Hon & Hc & Href).
  unfold deleteFrom. change cascadeFuel with (S (S 10)).
  rewrite deleteRows_unfold.
  rewrite (fold_follow_blocked 10 victims (referencing t) d fk0 c0); try done.
  - intros fk [Hfk _]%referencing_elem_of. by apply cascade_into_leaves.
  - intros fk [Hfk Hp]%referencing_elem_of Hc'.
    apply referencing_elem_of in Hin as [Hfk0 Hp0].
    apply cascade_apart_from_restrict; congruence.
Qed.

Lemma deleteFrom_free (t : string) (victims : list Row) (d : Database) :
  ¬ blocked t victims d →
  ∃ d',
    deleteFrom t victims d = Deleted d'
    ∧ (∀ r, r ∈ rowsOf d' t ↔ r ∈ rowsOf d t ∧ r ∉ victims)
    ∧ (∀ t' c, t' ≠ t →
         c ∈ rowsOf d' t'
         ↔ c ∈ rowsOf d t' ∧ spared (referencing t) victims t' c).
Proof.
  intros Hfree. unfold deleteFrom. change cascadeFuel with (S (S 10)).
  rewrite deleteRows_unfold.
  destruct (fold_follow_free 10 victims (referencing t) d)
    as (d2 & -> & Hrows).
  - intros fk [Hfk _]%referencing_elem_of. by apply cascade_into_leaves.
  - intros fk c Hfk Hon Hc. apply not_true_is_false. intros Href.
    apply Hfree. by exists fk, c.
  - eexists. split; [reflexivity|]. split.
    + intros r. rewrite rowsOf_insert, list_elem_of_filter, Hrows.
      split; [tauto|]. intros [Hin Hnv]. split; [done|]. split; [done|].
      intros fk [Hfk Hp]%referencing_elem_of Ht.
      exfalso. apply (no_self_reference fk Hfk). congruence.
    + intros t' c Hne. by rewrite rowsOf_insert_ne, Hrows.
Qed.

Section DeleteOutcome.
Context `{FilterSemantics}.

Lemma selectRows_all (t : string) (d : Database) :
  selectRows t VUndefined d = rowsOf d t.
Proof.
  unfold selectRows. simpl.
  induction (rowsOf d t) as [|r rows IH]; [done|].
  rewrite filter_cons_True; [by rewrite IH|].
  unfold matches. apply bool_decide_eq_true. apply map_Forall_empty.
Qed.

(** What a [deleteMany] request does. *)
Lemma request_deleteMany (m t : string) (a : gmap string Value) (w : World) :
  tableOf m = Some t →
  request m deleteMany a w
  = match deleteFrom t (selectRows t (getProp a "where") (db w)) (db w) with
    | Deleted d =>
        (Returned (QCount (length (selectRows t (getProp a "where") (db w)))),
         mkWorld (currentTenantId w) d)
    | Restricted => (Thrown ConstraintViolation, w)
    | Exhausted => (Thrown notInterpreted, w)
    end.
Proof. intros Ht. unfold request. run_engine. by rewrite Ht. Qed.
End DeleteOutcome.

(** X4.  A delete of one record, on any model: it is reported as not
    found when the filter selects no row; it fails with a constraint
    violation and changes nothing when a row refers to the selected
    record through an ON DELETE RESTRICT key (a Product to its Supplier,
    a ShipmentRoute to its origin or destination Location); otherwise it
    goes through, removes the record and, from every table, exactly the
    rows referring to it through an ON DELETE CASCADE key. *)
Theorem delete_outcome `{FilterSemantics} (m t : string)
    (a : gmap string Value) (w : World) :
  tableOf m = Some t →
  (selectRows t (getProp a "where") (db w) = [] →
   request m delete_ a w = (Thrown NotFound, w))
  ∧ ∀ r rest,
      selectRows t (getProp a "where") (db w) = r :: rest →
      (blocked t [r] (db w) →
       request m delete_ a w = (Thrown ConstraintViolation, w))
      ∧ (¬ blocked t [r] (db w) →
         ∃ d',
           request m delete_ a w
           = (Returned (QRecord (Some r)), mkWorld (currentTenantId w) d')
           ∧ (∀ r', r' ∈ rowsOf d' t ↔ r' ∈ rowsOf (db w) t ∧ r' ≠ r)
           ∧ (∀ t' c, t' ≠ t →
                c ∈ rowsOf d' t'
                ↔ c ∈ rowsOf (db w) t' ∧ spared (referencing t) [r] t' c)).
Proof.
  intros Ht. split.
  - intros Hsel. unfold request. run_engine. rewrite Ht.
    by rewrite Hsel.
  - intros r rest Hsel. rewrite (request_delete m t a w r rest Ht Hsel).
    split.
    + intros Hb. by rewrite deleteFrom_blocked.
    + intros Hf. destruct (deleteFrom_free t [r] (db w) Hf)
        as (d' & -> & Hself & Hothers).
      exists d'. split; [reflexivity|]. split; [|exact Hothers].
      intros r'. rewrite Hself, list_elem_of_singleton. tauto.
Qed.

Lemma delete_outcome_witness :
  let w := mkWorld (Some "tenant-a-001") exampleDb in
  @request noOtherConditions "Location" delete_ {[ "where" := byId "la1" ]} w
  = (Thrown ConstraintViolation, w).
Proof.
  intros w.
  destruct (@delete_outcome noOtherConditions "Location" "locations"
              {[ "where" := byId "la1" ]} w eq_refl) as [_ Hsome].
  destruct (Hsome (locationRow "la1" "tenant-a-001" "LOC-A1") [] eq_refl)
    as [Hblocked _].
  apply Hblocked.
  exists (mkFK "shipment_routes" "origin_location_id" "locations" "id"
            Restrict Cascade), routeA.
  split; [by apply (bool_decide_unpack _)|]. split; [reflexivity|].
  split; [apply list_elem_of_here|reflexivity].
Defined.

(* ===================================================================== *)
(** * Invariants of the stored data *)
(* ===================================================================== *)

Lemma violatesForeignKey_false (d : Database) (t : string) (r : Row)
    (fk : ForeignKey) :
  violatesForeignKey d t r = false →
  fk ∈ foreignKeys → fkTable fk = t → cell r (fkColumn fk) ≠ SNull →
  ∃ p, p ∈ rowsOf d (fkParent fk)
       ∧ cell p (fkParentColumn fk) = cell r (fkColumn fk).
Proof.
  intros Hv Hfk Ht Hnn. unfold violatesForeignKey in Hv.
  destruct (existsb
              (λ p, bool_decide
                      (cell p (fkParentColumn fk) = cell r (fkColumn fk)))
              (rowsOf d (fkParent fk))) eqn:Hex.
  - apply existsb_exists in Hex as (p & Hp%list_elem_of_In & Heq).
    exists p. split; [done|]. by apply bool_decide_eq_true in Heq.
  - exfalso. apply not_true_iff_false in Hv. apply Hv.
    apply existsb_exists. exists fk. split; [by apply list_elem_of_In|].
    by rewrite Ht, String.eqb_refl, bool_decide_eq_true_2, Hex.
Qed.

Lemma rowsOf_insert_sub (t t' : string) (r c : Row) (d : Database) :
  c ∈ rowsOf d t' → c ∈ rowsOf (<[t := rowsOf d t ++ [r]]> d) t'.
Proof.
  intros Hc. destruct (decide (t = t')) as [->|Hne].
  - rewrite rowsOf_insert. apply elem_of_app. by left.
  - by rewrite rowsOf_insert_ne.
Qed.

(** X6.  Referential integrity is an invariant: when every non-null
    foreign-key value names a row of its parent table, this is still so
    after an accepted insert and after a delete that went through, with
    its cascades. *)
Theorem integrity_kept (t : string) (d d' : Database) :
  intact d →
  (∃ r, insertRow t r d = Some d')
  ∨ (∃ victims, deleteFrom t victims d = Deleted d') →
  intact d'.
Proof.
  intros Hint [[r Hins]|[victims Hdel]].
  - apply insertRow_Some in Hins as (-> & _ & Hfk).
    intros fk c Hin Hc Hnn.
    assert (∃ p, p ∈ rowsOf d (fkParent fk)
                 ∧ cell p (fkParentColumn fk) = cell c (fkColumn fk))
      as (p & Hp & Heq).
    { destruct (decide (t = fkTable fk)) as [->|Hne].
      - rewrite rowsOf_insert in Hc.
        apply elem_of_app in Hc as [Hc|Hc].
        + by apply Hint.
        + apply list_elem_of_singleton in Hc as ->.
          by apply (violatesForeignKey_false d (fkTable fk)).
      - rewrite rowsOf_insert_ne in Hc by done. by apply Hint. }
    exists p. split; [by apply rowsOf_insert_sub|done].
  - assert (¬ blocked t victims d) as Hfree.
    { intros Hb. rewrite (deleteFrom_blocked _ _ _ Hb) in Hdel. discriminate. }
    destruct (deleteFrom_free t victims d Hfree) as (d2 & Heq & Hself & Hothers).
    rewrite Heq in Hdel. injection Hdel as <-.
    assert (∀ t' c, c ∈ rowsOf d2 t' → c ∈ rowsOf d t') as Hsub.
    { intros t' c. destruct (decide (t' = t)) as [->|Hne].
      - by intros [? _]%Hself.
      - by intros [? _]%(Hothers t' c Hne). }
    intros fk c Hin Hc Hnn.
    destruct (Hint fk c Hin (Hsub _ _ Hc) Hnn) as (p & Hp & Heqp).
    exists p. split; [|done].
    destruct (decide (fkParent fk = t)) as [Hpt|Hpt].
    + rewrite Hpt in Hp |- *. apply Hself. split; [done|].
      intros Hv.
      assert (refersTo fk victims c = true) as Href.
      { unfold refersTo. rewrite bool_decide_eq_true_2 by done. simpl.
        apply existsb_exists. exists p. split; [by apply list_elem_of_In|].
        by apply bool_decide_eq_true. }
      assert (fk ∈ referencing t) as Hrt by by apply referencing_elem_of.
      assert (fkTable fk ≠ t) as Hct.
      { intros Hct. apply (no_self_reference fk Hin). congruence. }
      destruct (onDelete fk) eqn:Hon.
      * apply Hfree. exists fk, c. split; [done|]. split; [done|].
        split; [by apply Hsub|done].
      * apply (Hothers _ c Hct) in Hc as [_ Hsp].
        rewrite (Hsp fk Hrt eq_refl Hon) in Href. discriminate.
    + apply Hothers; [done|]. split; [done|].
      intros fk' [Hfk' _]%referencing_elem_of Htab Hon.
      apply cascade_into_leaves in Hon; [|done].
      assert (fk ∈ referencing (fkTable fk')) as Hbad
        by (apply referencing_elem_of; split; congruence).
      rewrite Hon in Hbad. by apply elem_of_nil in Hbad.
Qed.

Lemma locationsDb_intact : intact locationsDb.
Proof.
  intros fk c Hin Hc _. exfalso. unfold foreignKeys in Hin.
  cases_of Hin; rewrite Hin in Hc; vm_compute in Hc;
    by apply elem_of_nil in Hc.
Qed.

Lemma routeA_accepted :
  insertRow "shipment_routes" routeA locationsDb
  = Some (<[ "shipment_routes" := [routeA] ]> locationsDb).
Proof. in_list. Qed.

Lemma integrity_kept_witness :
  intact (<[ "shipment_routes" := [routeA] ]> locationsDb).
Proof.
  apply (integrity_kept "shipment_routes" locationsDb).
  - exact locationsDb_intact.
  - left. exists routeA. exact routeA_accepted.
Defined.

Lemma collide_sym (cols : list string) (r1 r2 : Row) :
  collide cols r1 r2 = collide cols r2 r1.
Proof.
  unfold collide. induction cols as [|c cols IH]; [done|]. simpl.
  rewrite IH. f_equal. apply bool_decide_ext. split.
  - intros [Heq Hn]. split; [done|congruence].
  - intros [Heq Hn]. split; [done|congruence].
Qed.

Lemma violatesUnique_false (t : string) (cols : list string) (r r' : Row)
    (existing : list Row) :
  violatesUnique t r existing = false →
  (t, cols) ∈ uniqueIndexes → r' ∈ existing → collide cols r r' = false.
Proof.
  intros Hv Hix Hr. apply not_true_is_false. intros Hc.
  rewrite (violatesUnique_intro t cols r r' existing) in Hv by done.
  discriminate.
Qed.

(** X7.  Uniqueness is an invariant of inserts: when no two rows of a
    table collide on a primary key or unique index, an accepted insert
    leaves it so. *)
Theorem insert_keeps_distinct (t : string) (r : Row) (d d' : Database) :
  distinctRows d → insertRow t r d = Some d' → distinctRows d'.
Proof.
  intros Hd Hins. apply insertRow_Some in Hins as (-> & Hu & _).
  intros t' cols i j r1 r2 Hix Hlt H1 H2.
  destruct (decide (t = t')) as [<-|Hne].
  - rewrite rowsOf_insert in H1, H2.
    destruct (decide (j < length (rowsOf d t))) as [Hj|Hj].
    + rewrite lookup_app_l in H1, H2 by lia. by apply (Hd t cols i j).
    + assert (i < length (rowsOf d t) ∧ r2 = r) as [Hi ->].
      { apply lookup_lt_Some in H2 as Hlen. rewrite length_app in Hlen.
        simpl in Hlen. assert (j = length (rowsOf d t)) as -> by lia.
        split; [done|].
        rewrite lookup_app_r, Nat.sub_diag in H2 by lia. by injection H2. }
      rewrite lookup_app_l in H1 by done.
      rewrite collide_sym.
      apply (violatesUnique_false t cols r r1 (rowsOf d t)); [done..|].
      by apply list_elem_of_lookup_2 in H1.
  - rewrite rowsOf_insert_ne in H1, H2 by done. by apply (Hd t' cols i j).
Qed.

Lemma apart_lookup (cols : list string) (rows : list Row) (i j : nat)
    (r1 r2 : Row) :
  apart cols rows = true → i < j →
  rows !! i = Some r1 → rows !! j = Some r2 → collide cols r1 r2 = false.
Proof.
  revert i j. induction rows as [|r rows IH]; intros i j Ha Hlt H1 H2.
  - by rewrite lookup_nil in H1.
  - simpl in Ha. apply andb_true_iff in Ha as [Hhead Htail].
    destruct j as [|j]; [lia|]. simpl in H2.
    destruct i as [|i]; simpl in H1.
    + injection H1 as ->. rewrite forallb_forall in Hhead.
      apply negb_true_iff, Hhead, list_elem_of_In.
      by apply list_elem_of_lookup_2 in H2.
    + apply (IH i j); [done|lia|done..].
Qed.

Lemma distinctRows_intro (d : Database) :
  (∀ t cols, (t, cols) ∈ uniqueIndexes → apart cols (rowsOf d t) = true) →
  distinctRows d.
Proof.
  intros Ha t cols i j r1 r2 Hix Hlt H1 H2.
  by apply (apart_lookup cols (rowsOf d t) i j); [apply Ha|..].
Qed.

Lemma locationsDb_distinct : distinctRows locationsDb.
Proof.
  apply distinctRows_intro. intros t cols Hix. unfold uniqueIndexes in Hix.
  cases_of Hix; injection Hix as -> ->; vm_compute; reflexivity.
Qed.

Lemma fifth_location_accepted :
  insertRow "locations" (locationRow "la3" "tenant-a-001" "LOC-A3") locationsDb
  = Some (<[ "locations" :=
               rowsOf locationsDb "locations"
               ++ [locationRow "la3" "tenant-a-001" "LOC-A3"] ]> locationsDb).
Proof. in_list. Qed.

Lemma insert_keeps_distinct_witness :
  distinctRows
    (<[ "locations" :=
          rowsOf locationsDb "locations"
          ++ [locationRow "la3" "tenant-a-001" "LOC-A3"] ]> locationsDb).
Proof.
  apply (insert_keeps_distinct "locations"
           (locationRow "la3" "tenant-a-001" "LOC-A3") locationsDb).
  - exact locationsDb_distinct.
  - exact fifth_location_accepted.
Defined.

(* ===================================================================== *)
(** * The clean-up of the seed script *)
(* ===================================================================== *)

Section CleanUp.
Context `{FilterSemantics}.

(** Emptying a table whose RESTRICT children are empty already: it goes
    through, the table is empty afterwards, and empty tables stay
    empty. *)
Lemma deleteMany_all (m t : string) (w : World) :
  tableOf m = Some t →
  (∀ fk, fk ∈ referencing t → onDelete fk = Restrict →
         rowsOf (db w) (fkTable fk) = []) →
  ∃ d',
    request m deleteMany ∅ w
    = (Returned (QCount (length (rowsOf (db w) t))),
       mkWorld (currentTenantId w) d')
    ∧ rowsOf d' t = []
    ∧ ∀ t', rowsOf (db w) t' = [] → rowsOf d' t' = [].
Proof.
  intros Ht Hempty. rewrite (request_deleteMany m t ∅ w Ht).
  unfold getProp. rewrite lookup_empty. simpl. rewrite selectRows_all.
  destruct (deleteFrom_free t (rowsOf (db w) t) (db w))
    as (d' & -> & Hself & Hothers).
  { intros (fk & c & Hfk & Hon & Hc & _).
    rewrite (Hempty fk Hfk Hon) in Hc. by apply elem_of_nil in Hc. }
  exists d'. split; [reflexivity|].
  assert (rowsOf d' t = []) as Hnil.
  { apply elem_of_nil_inv. intros r [Hin Hnin]%Hself. done. }
  split; [exact Hnil|].
  intros t' Ht'. destruct (decide (t' = t)) as [->|Hne]; [done|].
  apply elem_of_nil_inv. intros c [Hc _]%(Hothers t' c Hne).
  rewrite Ht' in Hc. by apply elem_of_nil in Hc.
Qed.
End CleanUp.

(** No RESTRICT key points at the table: nothing to check. *)
Ltac no_restrict :=
  let fk := fresh in let Hfk := fresh in let Hon := fresh in
  intros fk Hfk Hon; exfalso; vm_compute in Hfk;
  cases_of Hfk; rewrite Hfk in Hon; discriminate Hon.

(** X8.  The clean-up order of the seed script respects the RESTRICT
    keys: on every database the eleven [deleteMany({})] calls all go
    through, in that order, and leave every table of the schema
    empty. *)
Theorem seed_cleanup_succeeds `{FilterSemantics} (w : World) :
  ∃ n d',
    cleanExistingData w
    = (Returned (QCount n), mkWorld (currentTenantId w) d')
    ∧ ∀ m t, tableOf m = Some t → rowsOf d' t = [].
Proof.
  unfold cleanExistingData, mbind, M_bind.
  destruct (deleteMany_all "RiskEventRoute" "risk_event_routes" w eq_refl)
    as (d1 & -> & E1 & K1); [no_restrict|].
  destruct (deleteMany_all "RiskEventLocation" "risk_event_locations"
              (mkWorld (currentTenantId w) d1) eq_refl)
    as (d2 & -> & E2 & K2); [no_restrict|].
  cbn beta iota delta [db currentTenantId] in *. apply K2 in E1.
  destruct (deleteMany_all "RiskEventProduct" "risk_event_products"
              (mkWorld (currentTenantId w) d2) eq_refl)
    as (d3 & -> & E3 & K3); [no_restrict|].
  cbn beta iota delta [db currentTenantId] in *. apply K3 in E1, E2.
  destruct (deleteMany_all "RiskEventSupplier" "risk_event_suppliers"
              (mkWorld (currentTenantId w) d3) eq_refl)
    as (d4 & -> & E4 & K4); [no_restrict|].
  cbn beta iota delta [db currentTenantId] in *. apply K4 in E1, E2, E3.
  destruct (deleteMany_all "Inventory" "inventory"
              (mkWorld (currentTenantId w) d4) eq_refl)
    as (d5 & -> & E5 & K5); [no_restrict|].
  cbn beta iota delta [db currentTenantId] in *. apply K5 in E1, E2, E3, E4.
  destruct (deleteMany_all "RiskEvent" "risk_events"
              (mkWorld (currentTenantId w) d5) eq_refl)
    as (d6 & -> & E6 & K6); [no_restrict|].
  cbn beta iota delta [db currentTenantId] in *. apply K6 in E1, E2, E3, E4, E5.
  destruct (deleteMany_all "ShipmentRoute" "shipment_routes"
              (mkWorld (currentTenantId w) d6) eq_refl)
    as (d7 & -> & E7 & K7); [no_restrict|].
  cbn beta iota delta [db currentTenantId] in *. apply K7 in E1, E2, E3, E4, E5, E6.
  destruct (deleteMany_all "Location" "locations"
              (mkWorld (currentTenantId w) d7) eq_refl)
    as (d8 & -> & E8 & K8).
  { intros fk Hfk Hon. vm_compute in Hfk.
    cases_of Hfk; rewrite Hfk in Hon |- *; first [discriminate Hon|exact E7]. }
  cbn beta iota delta [db currentTenantId] in *. apply K8 in E1, E2, E3, E4, E5, E6, E7.
  destruct (deleteMany_all "Product" "products"
              (mkWorld (currentTenantId w) d8) eq_refl)
    as (d9 & -> & E9 & K9); [no_restrict|].
  cbn beta iota delta [db currentTenantId] in *. apply K9 in E1, E2, E3, E4, E5, E6, E7, E8.
  destruct (deleteMany_all "Supplier" "suppliers"
              (mkWorld (currentTenantId w) d9) eq_refl)
    as (d10 & -> & E10 & K10).
  { intros fk Hfk Hon. vm_compute in Hfk.
    cases_of Hfk; rewrite Hfk in Hon |- *; first [discriminate Hon|exact E9]. }
  cbn beta iota delta [db currentTenantId] in *. apply K10 in E1, E2, E3, E4, E5, E6, E7, E8, E9.
  destruct (deleteMany_all "User" "users"
              (mkWorld (currentTenantId w) d10) eq_refl)
    as (d11 & -> & E11 & K11); [no_restrict|].
  cbn beta iota delta [db currentTenantId] in *. apply K11 in E1, E2, E3, E4, E5, E6, E7, E8, E9, E10.
  eexists _, d11. split; [reflexivity|].
  intros m t Ht%tableOf_known. unfold modelTables in Ht. simpl in Ht.
  cases_of Ht; by rewrite Ht.
Qed.
